(** * NewsBrief: bookmark store, news cache and article identity

    A shallow embedding of the storage service ([services/storage.ts]), the
    bookmarks slice ([store/slices/bookmarksSlice.ts]), the bookmark selectors,
    the response transformation of [store/api/newsApi.ts] and the list
    rendering of the three screens, followed by the properties that the
    specification states about them. *)

From Stdlib Require Import ZArith Ascii String List Bool Lia.
From Stdlib Require Import DecimalFacts DecimalPos DecimalN DecimalZ.
From stdpp Require Import gmap strings list.

(** * JSON text

    [JSON.stringify] and [JSON.parse] are built into the language; the storage
    service calls them on every read and write.  A JS string is modelled by
    the string of its UTF-8 bytes, and a number by an integer: the only
    numbers the service writes itself are [Date.now()] timestamps.  Number
    literals with a fraction or an exponent and escapes of surrogate code
    units have no counterpart in this model; [parse] answers [Unsupported]
    for them, which is kept apart from the [SyntaxError] of a malformed
    text. *)
Module JSON.

Unset Elimination Schemes.
Inductive json : Type :=
| JNull
| JBool (b : bool)
| JNum (z : Z)
| JStr (s : string)
| JArr (vs : list json)
| JObj (ms : list (string * json)).
Set Elimination Schemes.

(** ** Printing *)

Definition dquote : ascii := "034"%char.
Definition backslash : ascii := "092"%char.

Definition hex_digit (n : N) : ascii :=
  match n with
  | 0 => "0" | 1 => "1" | 2 => "2" | 3 => "3" | 4 => "4" | 5 => "5"
  | 6 => "6" | 7 => "7" | 8 => "8" | 9 => "9" | 10 => "a" | 11 => "b"
  | 12 => "c" | 13 => "d" | 14 => "e" | _ => "f"
  end%N%char.

(** QuoteJSONString, one code unit at a time: the short escapes, then
    [\u00xx] for the other control characters, everything else verbatim. *)
Definition quote_char (c : ascii) : list ascii :=
  let n := N_of_ascii c in
  if (n =? 8)%N then [backslash; "b"%char]
  else if (n =? 9)%N then [backslash; "t"%char]
  else if (n =? 10)%N then [backslash; "n"%char]
  else if (n =? 12)%N then [backslash; "f"%char]
  else if (n =? 13)%N then [backslash; "r"%char]
  else if (n =? 34)%N then [backslash; dquote]
  else if (n =? 92)%N then [backslash; backslash]
  else if (n <? 32)%N then
    [backslash; "u"%char; "0"%char; "0"%char;
     hex_digit (n / 16); hex_digit (n mod 16)]
  else [c].

Definition quote (s : string) : list ascii :=
  dquote :: flat_map quote_char (list_ascii_of_string s) ++ [dquote].

Fixpoint print_uint (d : Decimal.uint) : list ascii :=
  match d with
  | Decimal.Nil => []
  | Decimal.D0 d => "0"%char :: print_uint d
  | Decimal.D1 d => "1"%char :: print_uint d
  | Decimal.D2 d => "2"%char :: print_uint d
  | Decimal.D3 d => "3"%char :: print_uint d
  | Decimal.D4 d => "4"%char :: print_uint d
  | Decimal.D5 d => "5"%char :: print_uint d
  | Decimal.D6 d => "6"%char :: print_uint d
  | Decimal.D7 d => "7"%char :: print_uint d
  | Decimal.D8 d => "8"%char :: print_uint d
  | Decimal.D9 d => "9"%char :: print_uint d
  end.

Definition print_int (z : Z) : list ascii :=
  match Z.to_int z with
  | Decimal.Pos d => print_uint d
  | Decimal.Neg d => "-"%char :: print_uint d
  end.

Fixpoint join (sep : ascii) (parts : list (list ascii)) : list ascii :=
  match parts with
  | [] => []
  | p :: ps =>
      match ps with
      | [] => p
      | _ :: _ => p ++ sep :: join sep ps
      end
  end.

Fixpoint print (v : json) : list ascii :=
  match v with
  | JNull => list_ascii_of_string "null"
  | JBool true => list_ascii_of_string "true"
  | JBool false => list_ascii_of_string "false"
  | JNum z => print_int z
  | JStr s => quote s
  | JArr vs => "["%char :: join ","%char (map print vs) ++ ["]"%char]
  | JObj ms =>
      "{"%char ::
      join ","%char
        (map (fun m => let '(k, v) := m in quote k ++ ":"%char :: print v) ms)
      ++ ["}"%char]
  end.

Definition stringify (v : json) : string := string_of_list_ascii (print v).

(** ** Parsing *)

Inductive parsed (A : Type) : Type :=
| Ok (a : A)
| SyntaxError
| Unsupported.
Arguments Ok {A} a.
Arguments SyntaxError {A}.
Arguments Unsupported {A}.

Definition and_then {A B : Type} (r : parsed A) (f : A -> parsed B) : parsed B :=
  match r with
  | Ok a => f a
  | SyntaxError => SyntaxError
  | Unsupported => Unsupported
  end.

Definition is_ws (c : ascii) : bool :=
  let n := N_of_ascii c in
  ((n =? 32) || (n =? 9) || (n =? 10) || (n =? 13))%N.

Fixpoint skip_ws (s : list ascii) : list ascii :=
  match s with
  | c :: r => if is_ws c then skip_ws r else s
  | [] => []
  end.

Fixpoint expect (p s : list ascii) : parsed (list ascii) :=
  match p, s with
  | [], _ => Ok s
  | a :: p', b :: s' => if Ascii.eqb a b then expect p' s' else SyntaxError
  | _ :: _, [] => SyntaxError
  end.

Definition digit_of (c : ascii) : option (Decimal.uint -> Decimal.uint) :=
  match N_of_ascii c with
  | 48 => Some Decimal.D0 | 49 => Some Decimal.D1 | 50 => Some Decimal.D2
  | 51 => Some Decimal.D3 | 52 => Some Decimal.D4 | 53 => Some Decimal.D5
  | 54 => Some Decimal.D6 | 55 => Some Decimal.D7 | 56 => Some Decimal.D8
  | 57 => Some Decimal.D9 | _ => None
  end%N.

Fixpoint parse_digits (s : list ascii) : Decimal.uint * list ascii :=
  match s with
  | c :: r =>
      match digit_of c with
      | Some D => let '(d, r') := parse_digits r in (D d, r')
      | None => (Decimal.Nil, s)
      end
  | [] => (Decimal.Nil, [])
  end.

(** The start of a fraction or of an exponent after the digits. *)
Definition continues_number (s : list ascii) : bool :=
  match s with
  | c :: _ =>
      Ascii.eqb c "."%char || Ascii.eqb c "e"%char || Ascii.eqb c "E"%char
  | [] => false
  end.

Definition leading_zero (d : Decimal.uint) : bool :=
  match d with
  | Decimal.D0 Decimal.Nil => false
  | Decimal.D0 _ => true
  | _ => false
  end.

Definition parse_number (s : list ascii) : parsed (Z * list ascii) :=
  let '(neg, s1) :=
    match s with
    | c :: r => if Ascii.eqb c "-"%char then (true, r) else (false, s)
    | [] => (false, s)
    end in
  let '(d, r) := parse_digits s1 in
  match d with
  | Decimal.Nil => SyntaxError
  | _ =>
      if leading_zero d then SyntaxError
      else if continues_number r then Unsupported
      else Ok (Z.of_int (if neg then Decimal.Neg d else Decimal.Pos d), r)
  end.

Definition hex_value (c : ascii) : option N :=
  let n := N_of_ascii c in
  if ((48 <=? n) && (n <=? 57))%N then Some (n - 48)%N
  else if ((97 <=? n) && (n <=? 102))%N then Some (n - 87)%N
  else if ((65 <=? n) && (n <=? 70))%N then Some (n - 55)%N
  else None.

Definition hex4 (a b c d : ascii) : option N :=
  match hex_value a, hex_value b, hex_value c, hex_value d with
  | Some x, Some y, Some z, Some w => Some (((x * 16 + y) * 16 + z) * 16 + w)%N
  | _, _, _, _ => None
  end.

(** The UTF-8 bytes of a code unit of the basic plane; none for a
    surrogate. *)
Definition utf8_encode (n : N) : parsed (list ascii) :=
  if (n <? 128)%N then Ok [ascii_of_N n]
  else if (n <? 2048)%N then
    Ok [ascii_of_N (192 + n / 64); ascii_of_N (128 + n mod 64)]
  else if ((55296 <=? n) && (n <=? 57343))%N then Unsupported
  else
    Ok [ascii_of_N (224 + n / 4096); ascii_of_N (128 + (n / 64) mod 64);
        ascii_of_N (128 + n mod 64)].

Definition unescape (e : ascii) : option ascii :=
  let n := N_of_ascii e in
  if (n =? 34)%N then Some dquote
  else if (n =? 92)%N then Some backslash
  else if (n =? 47)%N then Some "/"%char
  else if (n =? 98)%N then Some "008"%char
  else if (n =? 102)%N then Some "012"%char
  else if (n =? 110)%N then Some "010"%char
  else if (n =? 114)%N then Some "013"%char
  else if (n =? 116)%N then Some "009"%char
  else None.

Definition prepend (cs : list ascii) (r : parsed (list ascii * list ascii))
  : parsed (list ascii * list ascii) :=
  and_then r (fun '(s, rest) => Ok (cs ++ s, rest)).

(** The characters of a string literal after its opening quote, up to and
    including the closing quote. *)
Fixpoint parse_chars (s : list ascii) : parsed (list ascii * list ascii) :=
  match s with
  | [] => SyntaxError
  | c :: r =>
      if Ascii.eqb c dquote then Ok ([], r)
      else if Ascii.eqb c backslash then
        match r with
        | [] => SyntaxError
        | e :: r1 =>
            if Ascii.eqb e "u"%char then
              match r1 with
              | h1 :: h2 :: h3 :: h4 :: r2 =>
                  match hex4 h1 h2 h3 h4 with
                  | Some n =>
                      match utf8_encode n with
                      | Ok bytes => prepend bytes (parse_chars r2)
                      | _ => Unsupported
                      end
                  | None => SyntaxError
                  end
              | _ => SyntaxError
              end
            else
              match unescape e with
              | Some c' => prepend [c'] (parse_chars r1)
              | None => SyntaxError
              end
        end
      else if (N_of_ascii c <? 32)%N then SyntaxError
      else prepend [c] (parse_chars r)
  end.

Definition parse_string (s : list ascii) : parsed (string * list ascii) :=
  match s with
  | c :: r =>
      if Ascii.eqb c dquote then
        and_then (parse_chars r)
          (fun '(cs, rest) => Ok (string_of_list_ascii cs, rest))
      else SyntaxError
  | [] => SyntaxError
  end.

(** Recursive descent; [fuel] bounds the number of nested calls.  A call
    for elements or members follows a character that has been read, and it
    makes its own calls after one fuel step, so twice the length of the
    text and one more is fuel enough for any text. *)
Fixpoint parse_value (fuel : nat) (s : list ascii) {struct fuel}
  : parsed (json * list ascii) :=
  match fuel with
  | O => SyntaxError
  | S fuel =>
      match skip_ws s with
      | [] => SyntaxError
      | c :: r =>
          if Ascii.eqb c "n"%char then
            and_then (expect (list_ascii_of_string "ull") r)
              (fun rest => Ok (JNull, rest))
          else if Ascii.eqb c "t"%char then
            and_then (expect (list_ascii_of_string "rue") r)
              (fun rest => Ok (JBool true, rest))
          else if Ascii.eqb c "f"%char then
            and_then (expect (list_ascii_of_string "alse") r)
              (fun rest => Ok (JBool false, rest))
          else if Ascii.eqb c dquote then
            and_then (parse_string (c :: r))
              (fun '(str, rest) => Ok (JStr str, rest))
          else if Ascii.eqb c "["%char then
            match skip_ws r with
            | [] => SyntaxError
            | c' :: r' =>
                if Ascii.eqb c' "]"%char then Ok (JArr [], r')
                else
                  and_then (parse_elements fuel r)
                    (fun '(vs, rest) => Ok (JArr vs, rest))
            end
          else if Ascii.eqb c "{"%char then
            match skip_ws r with
            | [] => SyntaxError
            | c' :: r' =>
                if Ascii.eqb c' "}"%char then Ok (JObj [], r')
                else
                  and_then (parse_members fuel r)
                    (fun '(ms, rest) => Ok (JObj ms, rest))
            end
          else
            and_then (parse_number (c :: r))
              (fun '(z, rest) => Ok (JNum z, rest))
      end
  end

with parse_elements (fuel : nat) (s : list ascii) {struct fuel}
  : parsed (list json * list ascii) :=
  match fuel with
  | O => SyntaxError
  | S fuel =>
      and_then (parse_value fuel s) (fun '(v, r) =>
        match skip_ws r with
        | [] => SyntaxError
        | c :: r' =>
            if Ascii.eqb c ","%char then
              and_then (parse_elements fuel r')
                (fun '(vs, rest) => Ok (v :: vs, rest))
            else if Ascii.eqb c "]"%char then Ok ([v], r')
            else SyntaxError
        end)
  end

with parse_members (fuel : nat) (s : list ascii) {struct fuel}
  : parsed (list (string * json) * list ascii) :=
  match fuel with
  | O => SyntaxError
  | S fuel =>
      and_then (parse_string (skip_ws s)) (fun '(k, r) =>
        match skip_ws r with
        | [] => SyntaxError
        | c :: r1 =>
            if Ascii.eqb c ":"%char then
              and_then (parse_value fuel r1) (fun '(v, r2) =>
                match skip_ws r2 with
                | [] => SyntaxError
                | c' :: r3 =>
                    if Ascii.eqb c' ","%char then
                      and_then (parse_members fuel r3)
                        (fun '(ms, rest) => Ok ((k, v) :: ms, rest))
                    else if Ascii.eqb c' "}"%char then Ok ([(k, v)], r3)
                    else SyntaxError
                end)
            else SyntaxError
        end)
  end.

(** [JSON.parse]: one value, with nothing but white space after it. *)
Definition parse (s : string) : parsed json :=
  let cs := list_ascii_of_string s in
  and_then (parse_value (2 * length cs + 1) cs) (fun '(v, rest) =>
    match skip_ws rest with
    | [] => Ok v
    | _ :: _ => SyntaxError
    end).

(** Property access [v.k] on a parsed object: the last member with that
    key wins, [None] stands for [undefined]. *)
Fixpoint member (k : string) (ms : list (string * json)) : option json :=
  match ms with
  | [] => None
  | (k', v) :: ms' =>
      match member k ms' with
      | Some v' => Some v'
      | None => if String.eqb k k' then Some v else None
      end
  end.

(** ** The shape of printed text *)

Definition print_member (m : string * json) : list ascii :=
  let '(k, v) := m in quote k ++ ":"%char :: print v.

(** The characters a printed value can start with. *)
Definition value_start (c : ascii) : bool :=
  match digit_of c with
  | Some _ => true
  | None =>
      Ascii.eqb c "n" || Ascii.eqb c "t" || Ascii.eqb c "f" || Ascii.eqb c dquote
      || Ascii.eqb c "[" || Ascii.eqb c "{" || Ascii.eqb c "-"
  end.

Definition starts_value (s : list ascii) : Prop :=
  match s with
  | c :: _ => value_start c = true
  | [] => False
  end.

(** Where an integer literal may stop: at the end of the text, or before a
    character that is neither a digit nor the start of a fraction or of an
    exponent. *)
Definition ends_number (s : list ascii) : bool :=
  match s with
  | c :: _ =>
      match digit_of c with
      | Some _ => false
      | None => negb (continues_number s)
      end
  | [] => true
  end.

(** Reading back the text of [v], whatever text follows it. *)
Definition value_ok (v : json) : Prop :=
  forall fuel rest,
    (length (print v) < fuel)%nat -> ends_number rest = true ->
    parse_value fuel (print v ++ rest) = Ok (v, rest).

End JSON.

(** * The environment: AsyncStorage, the clock, exceptions

    Code that awaits AsyncStorage or reads [Date.now()] is a computation over
    a [World].  A computation returns, throws an exception that an enclosing
    [try]/[catch] can handle, or leaves the modelled fragment of the
    language ([Unmodelled]: a value whose further use depends on implicit
    conversions that are not modelled here); no handler catches the latter. *)
Module Env.

Record World : Type := mkWorld {
  disk : gmap string string;  (* what AsyncStorage holds *)
  write_fails : bool;         (* AsyncStorage.setItem rejects *)
  read_fails : bool;          (* AsyncStorage.getItem rejects *)
  clock : Z                   (* Date.now(), in milliseconds *)
}.

Definition set_clock (t : Z) (w : World) : World :=
  mkWorld (disk w) (write_fails w) (read_fails w) t.

Definition set_disk (d : gmap string string) (w : World) : World :=
  mkWorld d (write_fails w) (read_fails w) (clock w).

Inductive exn : Type :=
| StorageError
| JsonSyntaxError
| TypeError.

Inductive outcome (A : Type) : Type :=
| Returned (a : A)
| Thrown (e : exn)
| Unmodelled.
Arguments Returned {A} a.
Arguments Thrown {A} e.
Arguments Unmodelled {A}.

Definition M (A : Type) : Type := World -> outcome A * World.

Definition ret {A : Type} (a : A) : M A := fun w => (Returned a, w).

Definition throw {A : Type} (e : exn) : M A := fun w => (Thrown e, w).

Definition unmodelled {A : Type} : M A := fun w => (Unmodelled, w).

Definition bind {A B : Type} (m : M A) (f : A -> M B) : M B :=
  fun w =>
    match m w with
    | (Returned a, w') => f a w'
    | (Thrown e, w') => (Thrown e, w')
    | (Unmodelled, w') => (Unmodelled, w')
    end.

(** [try { body } catch (error) { handler }] *)
Definition try_catch {A : Type} (body : M A) (handler : exn -> M A) : M A :=
  fun w =>
    match body w with
    | (Thrown e, w') => handler e w'
    | r => r
    end.

#[global] Instance M_ret : MRet M := @ret.
#[global] Instance M_bind : MBind M := fun A B f m => bind m f.
#[global] Typeclasses Opaque M.

Definition run {A : Type} (m : M A) (w : World) : outcome A := fst (m w).
Definition exec {A : Type} (m : M A) (w : World) : World := snd (m w).

(** A computation that leaves the world as it found it. *)
Definition reads_only {A : Type} (m : M A) : Prop := forall w, exec m w = w.

Definition Date_now : M Z := fun w => (Returned (clock w), w).

Definition AsyncStorage_getItem (key : string) : M (option string) :=
  fun w =>
    if read_fails w then (Thrown StorageError, w)
    else (Returned (disk w !! key), w).

Definition AsyncStorage_setItem (key value : string) : M unit :=
  fun w =>
    if write_fails w then (Thrown StorageError, w)
    else (Returned tt, set_disk (<[key := value]> (disk w)) w).

Definition JSON_parse (text : string) : M JSON.json :=
  match JSON.parse text with
  | JSON.Ok v => ret v
  | JSON.SyntaxError => throw JsonSyntaxError
  | JSON.Unsupported => unmodelled
  end.

End Env.

(** A JS value that may be [undefined]. *)
Inductive value : Type :=
| Undefined
| J (v : JSON.json).

(** Truthiness of [string | null]: a non-empty string. *)
Definition truthy (data : option string) : bool :=
  match data with
  | Some s => negb (String.eqb s "")
  | None => false
  end.

(** [Array.prototype.includes] on an array of strings. *)
Definition includes (x : string) (l : list string) : bool :=
  existsb (String.eqb x) l.

(** * Built-in string functions that the screens and the api call

    As for JSON, a string stands for its UTF-8 bytes; the functions below
    are the built-in ones on well-formed strings. *)
Module JSString.

(** [s.startsWith(p)] *)
Definition startsWith (s p : string) : bool := String.prefix p s.

(** White space and line terminators, as [trim] sees them: the ASCII ones
    in one byte, U+00A0 in two, and U+1680, U+2000 to U+200A, U+2028,
    U+2029, U+202F, U+205F, U+3000 and U+FEFF in three. *)
Definition ws1 (a : ascii) : bool :=
  let x := N_of_ascii a in
  ((9 <=? x) && (x <=? 13) || (x =? 32))%N.

Definition ws2 (a b : ascii) : bool :=
  ((N_of_ascii a =? 194) && (N_of_ascii b =? 160))%N.

Definition ws3 (a b c : ascii) : bool :=
  let x := N_of_ascii a in
  let y := N_of_ascii b in
  let z := N_of_ascii c in
  ((x =? 225) && (y =? 154) && (z =? 128)
   || (x =? 226) && (y =? 128)
      && ((128 <=? z) && (z <=? 138) || (z =? 168) || (z =? 169) || (z =? 175))
   || (x =? 226) && (y =? 129) && (z =? 159)
   || (x =? 227) && (y =? 128) && (z =? 128)
   || (x =? 239) && (y =? 187) && (z =? 191))%N.

Fixpoint trim_start (s : list ascii) : list ascii :=
  match s with
  | [] => []
  | a :: r =>
      if ws1 a then trim_start r
      else
        match r with
        | [] => s
        | b :: r1 =>
            if ws2 a b then trim_start r1
            else
              match r1 with
              | [] => s
              | c :: r2 => if ws3 a b c then trim_start r2 else s
              end
        end
  end.

Definition blank (s : list ascii) : bool :=
  match trim_start s with
  | [] => true
  | _ :: _ => false
  end.

(** Cuts where only white space follows.  A byte inside a character never
    starts a white-space character, so going byte by byte is safe. *)
Fixpoint trim_end (s : list ascii) : list ascii :=
  match s with
  | [] => []
  | c :: r => if blank s then [] else c :: trim_end r
  end.

(** [s.trim()] *)
Definition trim (s : string) : string :=
  string_of_list_ascii (trim_end (trim_start (list_ascii_of_string s))).

(** A text made of ASCII white space only: spaces, tabs, line feeds,
    vertical tabs, form feeds and carriage returns. *)
Definition blanks (p : list ascii) : Prop := Forall (fun c => ws1 c = true) p.

(** The characters that [encodeURIComponent] leaves as they are: letters,
    digits and [- _ . ! ~ * ' ( )]. *)
Definition unreserved (c : ascii) : bool :=
  let n := N_of_ascii c in
  ((65 <=? n) && (n <=? 90) || (97 <=? n) && (n <=? 122)
   || (48 <=? n) && (n <=? 57)
   || (n =? 45) || (n =? 95) || (n =? 46) || (n =? 33) || (n =? 126)
   || (n =? 42) || (n =? 39) || (n =? 40) || (n =? 41))%N.

Definition HEX_digit (n : N) : ascii :=
  match n with
  | 0 => "0" | 1 => "1" | 2 => "2" | 3 => "3" | 4 => "4" | 5 => "5"
  | 6 => "6" | 7 => "7" | 8 => "8" | 9 => "9" | 10 => "A" | 11 => "B"
  | 12 => "C" | 13 => "D" | 14 => "E" | _ => "F"
  end%N%char.

Definition encode_byte (c : ascii) : list ascii :=
  if unreserved c then [c]
  else ["%"%char; HEX_digit (N_of_ascii c / 16); HEX_digit (N_of_ascii c mod 16)].

(** [encodeURIComponent(s)]: every other byte of the UTF-8 form becomes a
    percent sign and two upper-case hexadecimal digits. *)
Definition encodeURIComponent (s : string) : string :=
  string_of_list_ascii (flat_map encode_byte (list_ascii_of_string s)).

End JSString.

(** * services/storage.ts *)
Module Storage.
Import JSON Env.
Local Open Scope string_scope.

Module KEYS.
Definition BOOKMARKS : string := "bookmarks".
Definition NEWS_CACHE : string := "news_cache".
End KEYS.

Definition saveBookmarks (bookmarks : list string) : M unit :=
  try_catch
    (AsyncStorage_setItem KEYS.BOOKMARKS (stringify (JArr (map JStr bookmarks))))
    (fun _ => ret tt).

(** The declared result type of [loadBookmarks] is [string[]]: the view of
    a parsed value at that type.  A stored text that parses to a value of
    another shape would put that value into the store unchanged, which the
    types of the slice do not describe. *)
Fixpoint as_strings (vs : list json) : option (list string) :=
  match vs with
  | [] => Some []
  | JStr s :: vs' =>
      match as_strings vs' with
      | Some l => Some (s :: l)
      | None => None
      end
  | _ :: _ => None
  end.

Definition as_string_array (v : json) : M (list string) :=
  match v with
  | JArr vs =>
      match as_strings vs with
      | Some l => ret l
      | None => unmodelled
      end
  | _ => unmodelled
  end.

Definition loadBookmarks : M (list string) :=
  try_catch
    (data ← AsyncStorage_getItem KEYS.BOOKMARKS;
     if truthy data
     then (parsed ← JSON_parse (default "" data); as_string_array parsed)
     else ret [])
    (fun _ => ret []).

Definition cacheNews (news : json) : M unit :=
  try_catch
    (now ← Date_now;
     let cacheData := JObj [("data", news); ("timestamp", JNum now)] in
     AsyncStorage_setItem KEYS.NEWS_CACHE (stringify cacheData))
    (fun _ => ret tt).

(** [parsed.key] for a key that no array, string, number or boolean has as
    a property of its own and that no prototype provides, as [timestamp]
    and [data] are.  Reading a property of [null] throws. *)
Definition get_prop (parsed : json) (key : string) : M value :=
  match parsed with
  | JNull => throw TypeError
  | JObj ms =>
      match member key ms with
      | Some v => ret (J v)
      | None => ret Undefined
      end
  | _ => ret Undefined
  end.

(** ToNumber, [None] for NaN.  The conversion of a string, an array or an
    object goes through their string form and is not modelled. *)
Definition ToNumber (v : value) : M (option Z) :=
  match v with
  | Undefined => ret None
  | J JNull => ret (Some 0%Z)
  | J (JBool b) => ret (Some (if b then 1 else 0)%Z)
  | J (JNum z) => ret (Some z)
  | J (JStr _) | J (JArr _) | J (JObj _) => unmodelled
  end.

(** [Date.now() - timestamp > limit]; a comparison with NaN is false. *)
Definition older_than (now : Z) (timestamp : option Z) (limit : Z) : bool :=
  match timestamp with
  | Some t => (limit <? now - t)%Z
  | None => false
  end.

Definition loadCachedNews : M value :=
  try_catch
    (data ← AsyncStorage_getItem KEYS.NEWS_CACHE;
     if truthy data then
       parsed ← JSON_parse (default "" data);
       now ← Date_now;
       stamp ← get_prop parsed "timestamp";
       timestamp ← ToNumber stamp;
       let isExpired := older_than now timestamp (24 * 60 * 60 * 1000) in
       if isExpired then ret (J JNull) else get_prop parsed "data"
     else ret (J JNull))
    (fun _ => ret (J JNull)).

(** The cases in which the stored text gives no value: the read fails, the
    key is missing, the text is empty, or it is not JSON. *)
Definition nothing_usable (key : string) (w : World) : Prop :=
  read_fails w = true
  \/ disk w !! key = None
  \/ disk w !! key = Some ""
  \/ exists text, disk w !! key = Some text /\ JSON.parse text = SyntaxError.

End Storage.

(** * store/slices/bookmarksSlice.ts *)
Module Bookmarks.
Import Env.
Local Open Scope string_scope.

Record BookmarksState : Type := mkState {
  items : list string;
  isLoading : bool;
  error : option string;
  lastUpdated : option Z
}.

Definition initialState : BookmarksState :=
  {| items := []; isLoading := false; error := None; lastUpdated := None |}.

(** The actions of the slice: its four synchronous action creators and the
    three life-cycle actions of each async thunk.  The payload of a
    [rejected] action is the argument of [rejectWithValue], and [undefined]
    when the payload creator threw. *)
Inductive Action : Type :=
| addBookmark (articleId : string)
| removeBookmark (articleId : string)
| clearAllBookmarks
| clearError
| loadBookmarksAsync_pending
| loadBookmarksAsync_fulfilled (payload : list string)
| loadBookmarksAsync_rejected (payload : option string)
| saveBookmarksAsync_pending
| saveBookmarksAsync_fulfilled (payload : list string)
| saveBookmarksAsync_rejected (payload : option string).

(** The reducer of the slice; [now] is what [Date.now()] returns while it
    runs. *)
Definition bookmarksReducer (now : Z) (state : BookmarksState) (action : Action)
  : BookmarksState :=
  match action with
  | addBookmark articleId =>
      if negb (includes articleId (items state)) then
        {| items := items state ++ [articleId];
           isLoading := isLoading state;
           error := error state;
           lastUpdated := Some now |}
      else state
  | removeBookmark articleId =>
      {| items := List.filter (fun id => negb (String.eqb id articleId)) (items state);
         isLoading := isLoading state;
         error := error state;
         lastUpdated := Some now |}
  | clearAllBookmarks =>
      {| items := [];
         isLoading := isLoading state;
         error := error state;
         lastUpdated := Some now |}
  | clearError =>
      {| items := items state;
         isLoading := isLoading state;
         error := None;
         lastUpdated := lastUpdated state |}
  | loadBookmarksAsync_pending | saveBookmarksAsync_pending =>
      {| items := items state;
         isLoading := true;
         error := None;
         lastUpdated := lastUpdated state |}
  | loadBookmarksAsync_fulfilled payload | saveBookmarksAsync_fulfilled payload =>
      {| items := payload;
         isLoading := false;
         error := error state;
         lastUpdated := Some now |}
  | loadBookmarksAsync_rejected payload | saveBookmarksAsync_rejected payload =>
      {| items := items state;
         isLoading := false;
         error := payload;
         lastUpdated := lastUpdated state |}
  end.

(** [store.dispatch] of a plain action. *)
Definition dispatch (action : Action) (state : BookmarksState) : M BookmarksState :=
  now ← Date_now; mret (bookmarksReducer now state action).

(** What a payload creator hands back to [createAsyncThunk]. *)
Inductive thunk_result (A : Type) : Type :=
| resolved (a : A)
| rejectWithValue (message : string).
Arguments resolved {A} a.
Arguments rejectWithValue {A} message.

(** Dispatching a thunk made by [createAsyncThunk]: [pending], then the
    payload creator, then [fulfilled] with its result or [rejected]. *)
Definition createAsyncThunk {Arg A : Type}
    (pending : Action) (fulfilled : A -> Action) (rejected : option string -> Action)
    (payloadCreator : Arg -> M (thunk_result A))
    (arg : Arg) (state : BookmarksState) : M BookmarksState :=
  state1 ← dispatch pending state;
  r ← try_catch (r ← payloadCreator arg; mret (Some r)) (fun _ => mret None);
  match r with
  | Some (resolved a) => dispatch (fulfilled a) state1
  | Some (rejectWithValue message) => dispatch (rejected (Some message)) state1
  | None => dispatch (rejected None) state1
  end.

(** A run of [addBookmark] actions, each with the time at which the reducer
    handles it. *)
Definition add_all (adds : list (Z * string)) (state : BookmarksState)
  : BookmarksState :=
  fold_left
    (fun st '(now, articleId) => bookmarksReducer now st (addBookmark articleId))
    adds state.

Definition loadBookmarksAsync : unit -> BookmarksState -> M BookmarksState :=
  createAsyncThunk loadBookmarksAsync_pending loadBookmarksAsync_fulfilled
    loadBookmarksAsync_rejected
    (fun _ =>
       try_catch
         (bookmarks ← Storage.loadBookmarks; mret (resolved bookmarks))
         (fun _ => mret (rejectWithValue "載入書籤失敗"))).

Definition saveBookmarksAsync : list string -> BookmarksState -> M BookmarksState :=
  createAsyncThunk saveBookmarksAsync_pending saveBookmarksAsync_fulfilled
    saveBookmarksAsync_rejected
    (fun bookmarks =>
       try_catch
         (Storage.saveBookmarks bookmarks;; mret (resolved bookmarks))
         (fun _ => mret (rejectWithValue "儲存書籤失敗"))).

(** The actions whose array of ids comes from the state itself, not from a
    payload: all but the two [fulfilled] ones. *)
Definition carries_no_array (action : Action) : bool :=
  match action with
  | loadBookmarksAsync_fulfilled _ | saveBookmarksAsync_fulfilled _ => false
  | _ => true
  end.

(** A run of actions through the reducer, each with the time at which the
    reducer handles it. *)
Definition reduce_all (actions : list (Z * Action)) (state : BookmarksState)
  : BookmarksState :=
  fold_left (fun st '(now, action) => bookmarksReducer now st action) actions state.

End Bookmarks.

(** * types/index.ts *)
Module Types.
Import Env Bookmarks.

Record ArticleSource : Type := {
  source_id : string;
  source_name : string
}.

Record Article : Type := mkArticle {
  id : string;
  title : string;
  description : string;
  url : string;
  urlToImage : option string;
  publishedAt : string;
  source : ArticleSource;
  author : option string;
  content : option string
}.

Record NewsApiResponse : Type := {
  status : string;
  totalResults : Z;
  articles : list Article
}.

(** The props of a news card that a screen computes; the callback is what
    pressing the star runs against the store. *)
Record NewsCardProps : Type := {
  article : Article;
  isBookmarked : bool;
  onBookmarkToggle : string -> BookmarksState -> M BookmarksState
}.

End Types.

(** * store/api/newsApi.ts *)
Module NewsApi.
Import Env Types.
Local Open Scope string_scope.

Record NewsQueryParams : Type := {
  category : option string;
  country : option string;
  page : option Z;
  pageSize : option Z
}.

(** An integer inside a template literal. *)
Definition Number_toString (z : Z) : string :=
  string_of_list_ascii (JSON.print_int z).

(** [{...article, id: article.url || `${prefix}-${index}-${Date.now()}`}] *)
Definition with_id (prefix : string) (now : Z) (index : nat) (article : Article)
  : Article :=
  {| id := if negb (String.eqb (url article) "") then url article
           else prefix +:+ "-" +:+ Number_toString (Z.of_nat index)
                       +:+ "-" +:+ Number_toString now;
     title := title article;
     description := description article;
     url := url article;
     urlToImage := urlToImage article;
     publishedAt := publishedAt article;
     source := source article;
     author := author article;
     content := content article |}.

(** [response.articles.map((article, index) => ...)], the same in the three
    endpoints but for the prefix of the generated id. *)
Definition transformResponse (prefix : string) (now : Z) (response : NewsApiResponse)
  : list Article :=
  imap (with_id prefix now) (articles response).

(** The same map with the clock as the callback reads it: [Date.now()] is
    evaluated inside the callback, once for each article without a link, so
    the readings may differ from one article to the next.  [clock index] is
    the reading while the article at [index] is mapped; [transformResponse]
    is the case of a clock that does not advance during the map. *)
Definition transformResponse_ticking (prefix : string) (clock : nat -> Z)
    (response : NewsApiResponse) : list Article :=
  imap (fun index => with_id prefix (clock index) index) (articles response).

Definition getHeadlines_transformResponse := transformResponse "article".
Definition searchNews_transformResponse := transformResponse "search".
Definition getNewsBySource_transformResponse := transformResponse "source".

Definition getHeadlines_query (arg : NewsQueryParams) : string :=
  "/top-headlines?category=" +:+ default "technology" (category arg)
  +:+ "&country=" +:+ default "us" (country arg)
  +:+ "&page=" +:+ Number_toString (default 1%Z (page arg))
  +:+ "&pageSize=" +:+ Number_toString (default 20%Z (pageSize arg)).

(** The result of a base query: the response, or the error of the fetch. *)
Inductive FetchBaseQueryError : Type :=
| FETCH_ERROR
| TIMEOUT_ERROR
| HTTP_STATUS (code : Z).

Inductive QueryReturnValue (A : Type) : Type :=
| QueryData (data : A)
| QueryError (error : FetchBaseQueryError).
Arguments QueryData {A} data.
Arguments QueryError {A} error.

(** Running the [getHeadlines] endpoint against a base query: the url of
    [query], then [transformResponse] on a response; an error of the base
    query is the error of the endpoint. *)
Definition getHeadlines
    (baseQuery : string -> QueryReturnValue NewsApiResponse)
    (arg : NewsQueryParams) : M (QueryReturnValue (list Article)) :=
  match baseQuery (getHeadlines_query arg) with
  | QueryData response =>
      now ← Date_now; mret (QueryData (getHeadlines_transformResponse now response))
  | QueryError error => mret (QueryError error)
  end.

Record SearchNewsParams : Type := {
  query : string;
  search_page : option Z;
  search_pageSize : option Z
}.

Definition searchNews_query (arg : SearchNewsParams) : string :=
  "/everything?q=" +:+ JSString.encodeURIComponent (query arg)
  +:+ "&page=" +:+ Number_toString (default 1%Z (search_page arg))
  +:+ "&pageSize=" +:+ Number_toString (default 20%Z (search_pageSize arg))
  +:+ "&sortBy=publishedAt".

End NewsApi.

(** * store/slices/uiSlice.ts *)
Module Ui.
Local Open Scope string_scope.

Inductive Theme : Type := light | dark.

Inductive NotificationType : Type := success | error | warning | info.

Record Notification : Type := {
  id : string;
  type : NotificationType;
  message : string;
  timestamp : Z
}.

Record Loading : Type := {
  global : bool;
  news : bool;
  bookmarks : bool
}.

Record UiState : Type := {
  theme : Theme;
  isOffline : bool;
  activeTab : string;
  notifications : list Notification;
  loading : Loading
}.

Definition initialState : UiState :=
  {| theme := light; isOffline := false; activeTab := "Headlines";
     notifications := [];
     loading := {| global := false; news := false; bookmarks := false |} |}.

Inductive Action : Type :=
| setTheme (payload : Theme)
| setOfflineStatus (payload : bool)
| setActiveTab (payload : string)
| setGlobalLoading (payload : bool)
| setNewsLoading (payload : bool)
| setBookmarksLoading (payload : bool)
| addNotification (payload_type : NotificationType) (payload_message : string)
| removeNotification (payload : string)
| clearAllNotifications.

(** The reducer of the slice.  [addNotification] reads the clock twice,
    first for the id and then for the time stamp: [now_id] and [now]. *)
Definition uiReducer (now_id now : Z) (state : UiState) (action : Action) : UiState :=
  match action with
  | setTheme payload =>
      {| theme := payload; isOffline := isOffline state;
         activeTab := activeTab state; notifications := notifications state;
         loading := loading state |}
  | setOfflineStatus payload =>
      {| theme := theme state; isOffline := payload;
         activeTab := activeTab state; notifications := notifications state;
         loading := loading state |}
  | setActiveTab payload =>
      {| theme := theme state; isOffline := isOffline state;
         activeTab := payload; notifications := notifications state;
         loading := loading state |}
  | setGlobalLoading payload =>
      {| theme := theme state; isOffline := isOffline state;
         activeTab := activeTab state; notifications := notifications state;
         loading := {| global := payload; news := news (loading state);
                       bookmarks := bookmarks (loading state) |} |}
  | setNewsLoading payload =>
      {| theme := theme state; isOffline := isOffline state;
         activeTab := activeTab state; notifications := notifications state;
         loading := {| global := global (loading state); news := payload;
                       bookmarks := bookmarks (loading state) |} |}
  | setBookmarksLoading payload =>
      {| theme := theme state; isOffline := isOffline state;
         activeTab := activeTab state; notifications := notifications state;
         loading := {| global := global (loading state);
                       news := news (loading state); bookmarks := payload |} |}
  | addNotification payload_type payload_message =>
      let notification :=
        {| id := NewsApi.Number_toString now_id; type := payload_type;
           message := payload_message; timestamp := now |} in
      {| theme := theme state; isOffline := isOffline state;
         activeTab := activeTab state;
         notifications := notifications state ++ [notification];
         loading := loading state |}
  | removeNotification payload =>
      {| theme := theme state; isOffline := isOffline state;
         activeTab := activeTab state;
         notifications :=
           List.filter (fun notification => negb (String.eqb (id notification) payload))
             (notifications state);
         loading := loading state |}
  | clearAllNotifications =>
      {| theme := theme state; isOffline := isOffline state;
         activeTab := activeTab state; notifications := [];
         loading := loading state |}
  end.

End Ui.

(** * store/selectors/bookmarksSelectors.ts *)
Module Selectors.
Import Bookmarks.

Record RootState : Type := {
  bookmarks : BookmarksState
}.

Definition selectBookmarksState (state : RootState) : BookmarksState :=
  bookmarks state.

Definition selectBookmarkItems (state : RootState) : list string :=
  items (selectBookmarksState state).

Definition selectBookmarkCount (state : RootState) : nat :=
  length (selectBookmarkItems state).

Definition selectIsBookmarked (state : RootState) (articleId : string) : bool :=
  includes articleId (selectBookmarkItems state).

Definition selectBookmarksLoading (state : RootState) : bool :=
  isLoading (selectBookmarksState state).

End Selectors.

(** * The screens: what each one hands to its list of news cards *)
Module Rendering.
Import Types Selectors.

(** What a screen shows below its header. *)
Inductive View : Type :=
| LoadingSpinner
| ErrorCard
| EmptyState
| FlatList (cards : list NewsCardProps).

Definition cards_of (v : View) : list NewsCardProps :=
  match v with
  | FlatList cards => cards
  | _ => []
  end.

(** The fields of a query hook that the screens read: [data], [isLoading],
    [isFetching], and whether [error] is set. *)
Record QueryHook : Type := {
  data : option (list Article);
  hook_isLoading : bool;
  hook_isFetching : bool;
  hook_error : bool
}.

(** The flag of a card agrees with the store. *)
Definition joined (state : RootState) (card : NewsCardProps) : Prop :=
  Types.isBookmarked card = selectIsBookmarked state (id (article card)).

End Rendering.

(** ** screens/HeadlinesScreen.tsx *)
Module HeadlinesScreen.
Import Env Bookmarks Types Selectors Rendering.

Definition isBookmarked (bookmarkItems : list string) (articleId : string) : bool :=
  includes articleId bookmarkItems.

Definition handleBookmarkToggle (bookmarkItems : list string) (articleId : string)
    (state : BookmarksState) : M BookmarksState :=
  if isBookmarked bookmarkItems articleId
  then dispatch (removeBookmark articleId) state
  else dispatch (addBookmark articleId) state.

Definition renderNewsItem (bookmarkItems : list string) (item : Article)
  : NewsCardProps :=
  {| article := item;
     Types.isBookmarked := isBookmarked bookmarkItems (id item);
     onBookmarkToggle := handleBookmarkToggle bookmarkItems |}.

(** The spinner while the first load is running, the error card of the
    error boundary when the query reports an error, the list otherwise. *)
Definition render (state : RootState) (query : QueryHook) : View :=
  let bookmarkItems := selectBookmarkItems state in
  let articles := default [] (data query) in
  if hook_isLoading query && Nat.eqb (length articles) 0 then LoadingSpinner
  else if hook_error query then ErrorCard
  else FlatList (map (renderNewsItem bookmarkItems) articles).

End HeadlinesScreen.

(** ** screens/SearchScreen.tsx *)
Module SearchScreen.
Import Env Bookmarks Types Selectors Rendering.

Definition isBookmarked (bookmarkItems : list string) (articleId : string) : bool :=
  includes articleId bookmarkItems.

Definition handleBookmarkToggle (bookmarkItems : list string) (articleId : string)
    (state : BookmarksState) : M BookmarksState :=
  if isBookmarked bookmarkItems articleId
  then dispatch (removeBookmark articleId) state
  else dispatch (addBookmark articleId) state.

Definition renderNewsItem (bookmarkItems : list string) (item : Article)
  : NewsCardProps :=
  {| article := item;
     Types.isBookmarked := isBookmarked bookmarkItems (id item);
     onBookmarkToggle := handleBookmarkToggle bookmarkItems |}.

(** [searchResults] is the local state of the screen. *)
Definition render (state : RootState) (searchResults : list Article)
    (query : QueryHook) : View :=
  let bookmarkItems := selectBookmarkItems state in
  if hook_isLoading query || hook_isFetching query then LoadingSpinner
  else if Nat.eqb (length searchResults) 0 then EmptyState
  else FlatList (map (renderNewsItem bookmarkItems) searchResults).

(** The local state of the screen: the text of the search bar and the
    results on display. *)
Record LocalState : Type := {
  searchQuery : string;
  searchResults : list Article
}.

(** What [handleSearch] hands to [triggerSearch], if it calls it. *)
Definition handleSearch (local : LocalState) : option NewsApi.SearchNewsParams :=
  if negb (String.eqb (JSString.trim (searchQuery local)) "")
  then Some {| NewsApi.query := JSString.trim (searchQuery local);
               NewsApi.search_page := None; NewsApi.search_pageSize := None |}
  else None.

Definition handleSearchTextChange (query : string) (local : LocalState) : LocalState :=
  {| searchQuery := query;
     searchResults :=
       if String.eqb (JSString.trim query) "" then [] else searchResults local |}.

End SearchScreen.

(** ** screens/BookmarksScreen.tsx *)
Module BookmarksScreen.
Import Env Bookmarks Types Selectors Rendering.

Definition isBookmarked (bookmarkItems : list string) (articleId : string) : bool :=
  includes articleId bookmarkItems.

Definition handleBookmarkToggle (articleId : string) (state : BookmarksState)
  : M BookmarksState :=
  dispatch (removeBookmark articleId) state.

Definition renderNewsItem (bookmarkItems : list string) (item : Article)
  : NewsCardProps :=
  {| article := item;
     Types.isBookmarked := isBookmarked bookmarkItems (id item);
     onBookmarkToggle := handleBookmarkToggle |}.

Definition render (state : RootState) (query : QueryHook) : View :=
  let bookmarkItems := selectBookmarkItems state in
  let isBookmarksLoading := selectBookmarksLoading state in
  let allNews := default [] (data query) in
  let bookmarkedArticles :=
    List.filter (fun article => includes (id article) bookmarkItems) allNews in
  if isBookmarksLoading || hook_isLoading query then LoadingSpinner
  else if Nat.eqb (length bookmarkedArticles) 0 then EmptyState
  else FlatList (map (renderNewsItem bookmarkItems) bookmarkedArticles).

End BookmarksScreen.

(** ** components/NewsCard.tsx *)
Module NewsCard.
Import Types.
Local Open Scope string_scope.

(** The two calls of [Linking]; [None] stands for a rejected promise. *)
Record Linking : Type := {
  canOpenURL : string -> option bool;
  openURL : string -> option unit
}.

(** What a press does, in order: calls of the [onPress] prop and of
    [Linking], and the alerts shown. *)
Inductive Effect : Type :=
| CalledOnPress
| AlertNoLink
| AskedCanOpen (url : string)
| AskedOpen (url : string)
| AlertCannotOpen.

Definition handlePress (onPress : bool) (linking : Linking) (article : Article)
  : list Effect :=
  if onPress then [CalledOnPress]
  else if String.eqb (url article) "" || String.eqb (JSString.trim (url article)) ""
  then [AlertNoLink]
  else
    let link :=
      if negb (JSString.startsWith (url article) "http://")
         && negb (JSString.startsWith (url article) "https://")
      then "https://" +:+ url article
      else url article in
    match canOpenURL linking link with
    | None => [AskedCanOpen link; AlertCannotOpen]
    | Some supported =>
        let target := if supported then link else url article in
        match openURL linking target with
        | Some _ => [AskedCanOpen link; AskedOpen target]
        | None => [AskedCanOpen link; AskedOpen target; AlertCannotOpen]
        end
    end.

(** [formatPublishTime]; [published] is [new Date(publishedAt).getTime()],
    [None] for the NaN of a date that does not parse, and [now] is
    [new Date().getTime()].  A comparison with NaN is false. *)
Definition formatPublishTime (published : option Z) (now : Z) : string :=
  match published with
  | None => "剛剛"
  | Some date =>
      let diffMs := (now - date)%Z in
      let diffHours := (diffMs / (1000 * 60 * 60))%Z in
      let diffDays := (diffHours / 24)%Z in
      if (0 <? diffDays)%Z then NewsApi.Number_toString diffDays +:+ "天前"
      else if (0 <? diffHours)%Z then NewsApi.Number_toString diffHours +:+ "小時前"
      else "剛剛"
  end.

End NewsCard.

(** * Concrete inputs *)
Module Examples.
Import Env Types NewsApi.
Local Open Scope string_scope.

(** A device on which nothing has been stored yet and storage works. *)
Definition fresh_device : World :=
  {| disk := ∅; write_fails := false; read_fails := false; clock := 1700000000000 |}.

(** The same device with a storage that rejects every write. *)
Definition read_only_device : World :=
  {| disk := ∅; write_fails := true; read_fails := false; clock := 1700000000000 |}.

(** An article that the API delivers without a link. *)
Definition unlinked (headline : string) : Article :=
  {| id := ""; title := headline; description := ""; url := "";
     urlToImage := None; publishedAt := "2024-01-01T00:00:00Z";
     source := {| source_id := ""; source_name := "wire" |};
     author := None; content := None |}.

Definition linked (link : string) : Article :=
  {| id := ""; title := "t"; description := ""; url := link;
     urlToImage := None; publishedAt := "2024-01-01T00:00:00Z";
     source := {| source_id := ""; source_name := "wire" |};
     author := None; content := None |}.

Definition two_unlinked : NewsApiResponse :=
  {| status := "ok"; totalResults := 2;
     articles := [unlinked "first"; unlinked "second"] |}.

(** A base query whose fetch times out. *)
Definition offline (url : string) : QueryReturnValue NewsApiResponse :=
  QueryError TIMEOUT_ERROR.

Definition default_params : NewsQueryParams :=
  {| category := Some "technology"; country := Some "us";
     page := None; pageSize := None |}.

End Examples.

(** * Facts about the JSON text format *)
Module JSONFacts.
Import JSON.

(** Induction over JSON values that reaches the elements of arrays and the
    members of objects. *)
Lemma json_ind (P : json -> Prop) :
  P JNull ->
  (forall b, P (JBool b)) ->
  (forall z, P (JNum z)) ->
  (forall s, P (JStr s)) ->
  (forall vs, Forall P vs -> P (JArr vs)) ->
  (forall ms, Forall (fun m => P (snd m)) ms -> P (JObj ms)) ->
  forall v, P v.
Proof.
  intros Hnull Hbool Hnum Hstr Harr Hobj.
  fix IH 1. intros [ | b | z | s | vs | ms ].
  - exact Hnull.
  - apply Hbool.
  - apply Hnum.
  - apply Hstr.
  - apply Harr. induction vs as [ | v vs IHvs ]; constructor; [ apply IH | exact IHvs ].
  - apply Hobj. induction ms as [ | [k v] ms IHms ]; constructor; [ apply IH | exact IHms ].
Qed.

Ltac each_ascii c := destruct c as [[] [] [] [] [] [] [] []].

Lemma print_uint_digits d rest :
  d <> Decimal.Nil ->
  exists c tl, print_uint d ++ rest = c :: tl /\ digit_of c <> None.
Proof. destruct d; intros Hd; try congruence; simpl; eauto. Qed.

Lemma parse_digits_print d rest :
  ends_number rest = true ->
  parse_digits (print_uint d ++ rest) = (d, rest).
Proof.
  intros Hrest. induction d; simpl; rewrite ?IHd; try reflexivity.
  destruct rest as [ | c tl ]; [ reflexivity | ].
  simpl in *. destruct (digit_of c); [ discriminate | reflexivity ].
Qed.

Lemma to_uint_head p : leading_zero (Pos.to_uint p) = false.
Proof.
  pose proof (DecimalPos.Unsigned.to_of (Pos.to_uint p)) as H.
  rewrite DecimalPos.Unsigned.of_to in H. simpl in H.
  pose proof (nzhead_nonzero (Pos.to_uint p)) as Hnz.
  rewrite H. unfold Decimal.unorm.
  destruct (Decimal.nzhead (Pos.to_uint p)) eqn:E; try reflexivity.
  exfalso. eapply Hnz. reflexivity.
Qed.

Lemma parse_number_uint (neg : bool) d rest :
  d <> Decimal.Nil -> leading_zero d = false -> ends_number rest = true ->
  parse_number ((if neg then ["-"%char] else []) ++ print_uint d ++ rest)
  = Ok (Z.of_int (if neg then Decimal.Neg d else Decimal.Pos d), rest).
Proof.
  intros Hd Hz Hrest. unfold parse_number.
  assert (Hcont : continues_number rest = false).
  { destruct rest as [ | c tl ]; [ reflexivity | ]. simpl in Hrest.
    destruct (digit_of c); [ discriminate | ].
    now apply negb_true_iff in Hrest. }
  destruct neg; simpl app.
  - cbv iota beta. rewrite Ascii.eqb_refl.
    rewrite (parse_digits_print d rest Hrest), Hz, Hcont.
    destruct d; congruence.
  - destruct (print_uint_digits d rest Hd) as (c & tl & E & Hc).
    rewrite E.
    assert (Hm : Ascii.eqb c "-"%char = false).
    { apply Ascii.eqb_neq. intros ->. apply Hc. reflexivity. }
    rewrite Hm, <- E. cbv iota beta.
    rewrite (parse_digits_print d rest Hrest), Hz, Hcont.
    destruct d; congruence.
Qed.

Lemma parse_number_print z rest :
  ends_number rest = true ->
  parse_number (print_int z ++ rest) = Ok (z, rest).
Proof.
  intros Hrest. rewrite <- (DecimalZ.of_to z) at 2. unfold print_int.
  destruct z as [ | p | p ]; simpl Z.to_int.
  - apply (parse_number_uint false); [ discriminate | reflexivity | exact Hrest ].
  - apply (parse_number_uint false); [ apply DecimalPos.Unsigned.to_uint_nonnil | apply to_uint_head | exact Hrest ].
  - apply (parse_number_uint true); [ apply DecimalPos.Unsigned.to_uint_nonnil | apply to_uint_head | exact Hrest ].
Qed.

Lemma print_int_head z rest :
  exists c tl, print_int z ++ rest = c :: tl /\ (digit_of c <> None \/ c = "-"%char).
Proof.
  unfold print_int. destruct (Z.to_int z) as [d | d] eqn:E.
  - assert (Hd : d <> Decimal.Nil).
    { destruct z; simpl in E; try discriminate; injection E as <-;
        [ discriminate | apply DecimalPos.Unsigned.to_uint_nonnil ]. }
    destruct (print_uint_digits d rest Hd) as (c & tl & -> & Hc). eauto.
  - simpl. eauto.
Qed.

Lemma parse_chars_quote_char c tail :
  parse_chars (quote_char c ++ tail) = prepend [c] (parse_chars tail).
Proof. each_ascii c; reflexivity. Qed.

Lemma parse_chars_quoted cs rest :
  parse_chars (flat_map quote_char cs ++ dquote :: rest) = Ok (cs, rest).
Proof.
  induction cs as [ | c cs IH ]; [ reflexivity | ].
  simpl flat_map. rewrite <- app_assoc, parse_chars_quote_char, IH. reflexivity.
Qed.

Lemma parse_string_quote s rest : parse_string (quote s ++ rest) = Ok (s, rest).
Proof.
  unfold quote, parse_string. rewrite <- app_comm_cons. cbv iota beta.
  rewrite Ascii.eqb_refl, <- app_assoc. simpl app.
  rewrite parse_chars_quoted. simpl.
  now rewrite string_of_list_ascii_of_string.
Qed.


Lemma value_start_solid c :
  value_start c = true ->
  is_ws c = false /\ Ascii.eqb c "]"%char = false /\ Ascii.eqb c "}"%char = false.
Proof. each_ascii c; intros H; try discriminate H; repeat split. Qed.

Lemma skip_ws_starts s : starts_value s -> skip_ws s = s.
Proof.
  destruct s as [ | c tl ]; [ intros [] | ]. simpl. intros H.
  destruct (value_start_solid c H) as (-> & _). reflexivity.
Qed.

Lemma print_starts v rest : starts_value (print v ++ rest).
Proof.
  destruct v as [ | [] | z | s | vs | ms ]; try reflexivity.
  unfold print. destruct (print_int_head z rest) as (c & tl & -> & [Hc | ->]);
    [ | reflexivity ].
  unfold starts_value, value_start. destruct (digit_of c); congruence.
Qed.

(** A value is dispatched on its first character. *)
Lemma parse_value_number fuel c tl :
  digit_of c <> None \/ c = "-"%char ->
  parse_value (S fuel) (c :: tl)
  = and_then (parse_number (c :: tl)) (fun '(z, rest) => Ok (JNum z, rest)).
Proof.
  intros H. each_ascii c; try reflexivity; exfalso;
    (destruct H as [H | H]; [ apply H; reflexivity | discriminate H ]).
Qed.

Lemma parse_value_scalar_null : value_ok JNull.
Proof. intros [ | fuel ] rest Hf _; [ simpl in Hf; lia | reflexivity ]. Qed.

Lemma parse_value_scalar_bool b : value_ok (JBool b).
Proof. intros [ | fuel ] rest Hf _; [ simpl in Hf; lia | destruct b; reflexivity ]. Qed.

Lemma parse_value_string fuel r :
  parse_value (S fuel) (dquote :: r)
  = and_then (parse_string (dquote :: r)) (fun '(str, rest) => Ok (JStr str, rest)).
Proof. reflexivity. Qed.

Lemma parse_value_array fuel r :
  parse_value (S fuel) ("["%char :: r)
  = match skip_ws r with
    | [] => SyntaxError
    | c' :: r' =>
        if Ascii.eqb c' "]"%char then Ok (JArr [], r')
        else and_then (parse_elements fuel r) (fun '(vs, rest) => Ok (JArr vs, rest))
    end.
Proof. reflexivity. Qed.

Lemma parse_value_object fuel r :
  parse_value (S fuel) ("{"%char :: r)
  = match skip_ws r with
    | [] => SyntaxError
    | c' :: r' =>
        if Ascii.eqb c' "}"%char then Ok (JObj [], r')
        else and_then (parse_members fuel r) (fun '(ms, rest) => Ok (JObj ms, rest))
    end.
Proof. reflexivity. Qed.

Lemma parse_value_scalar_str s : value_ok (JStr s).
Proof.
  intros [ | fuel ] rest Hf _; [ simpl in Hf; lia | ].
  pose proof (parse_string_quote s rest) as H.
  unfold print. unfold quote in *. rewrite <- app_comm_cons in *.
  rewrite parse_value_string, H. reflexivity.
Qed.

Lemma parse_value_scalar_num z : value_ok (JNum z).
Proof.
  intros [ | fuel ] rest Hf Hrest; [ simpl in Hf; lia | ].
  unfold print. pose proof (parse_number_print z rest Hrest) as Hn.
  destruct (print_int_head z rest) as (c & tl & E & Hc). rewrite E in *.
  rewrite parse_value_number, Hn; [ reflexivity | exact Hc ].
Qed.

(** After a value inside an array or an object comes a comma or the closing
    bracket, and an integer literal may stop there. *)
Lemma ends_number_sep c tl :
  c = ","%char \/ c = "]"%char \/ c = "}"%char -> ends_number (c :: tl) = true.
Proof. intros [-> | [-> | ->]]; reflexivity. Qed.

Lemma parse_elements_print vs :
  Forall value_ok vs -> vs <> [] ->
  forall fuel rest,
    (length (join ","%char (map print vs)) + 1 < fuel)%nat ->
    parse_elements fuel (join ","%char (map print vs) ++ "]"%char :: rest)
    = Ok (vs, rest).
Proof.
  induction 1 as [ | v vs Hv Hvs IH ]; [ congruence | ]. intros _ fuel rest Hf.
  destruct fuel as [ | fuel ]; [ lia | ].
  destruct vs as [ | v' vs' ].
  - simpl in *. rewrite Hv; [ | lia | reflexivity ]. reflexivity.
  - change (join ","%char (map print (v :: v' :: vs')))
      with (print v ++ ","%char :: join ","%char (map print (v' :: vs'))) in *.
    set (more := join ","%char (map print (v' :: vs'))) in *.
    assert (Hlen : length (print v ++ ","%char :: more)
                   = (length (print v) + S (length more))%nat)
      by (rewrite length_app; reflexivity).
    rewrite <- app_assoc, <- app_comm_cons.
    cbn [parse_elements]. rewrite Hv; [ | lia | reflexivity ].
    cbn [and_then skip_ws]. change (is_ws ","%char) with false. cbv iota.
    change (Ascii.eqb ","%char ","%char) with true. cbv iota.
    rewrite IH; [ reflexivity | discriminate | lia ].
Qed.


Lemma quote_starts k rest : starts_value (quote k ++ rest).
Proof. reflexivity. Qed.

Lemma parse_members_print ms :
  Forall (fun m => value_ok (snd m)) ms -> ms <> [] ->
  forall fuel rest,
    (length (join ","%char (map print_member ms)) + 1 < fuel)%nat ->
    parse_members fuel (join ","%char (map print_member ms) ++ "}"%char :: rest)
    = Ok (ms, rest).
Proof.
  induction 1 as [ | [k v] ms Hv Hms IH ]; [ congruence | ]. intros _ fuel rest Hf.
  destruct fuel as [ | fuel ]; [ lia | ]. simpl snd in Hv.
  assert (Hkey : forall tail,
    parse_members (S fuel) (quote k ++ ":"%char :: print v ++ tail)
    = and_then (parse_value fuel (print v ++ tail)) (fun '(v, r2) =>
        match skip_ws r2 with
        | [] => SyntaxError
        | c' :: r3 =>
            if Ascii.eqb c' ","%char then
              and_then (parse_members fuel r3)
                (fun '(ms, rest) => Ok ((k, v) :: ms, rest))
            else if Ascii.eqb c' "}"%char then Ok ([(k, v)], r3)
            else SyntaxError
        end)).
  { intros tail. cbn [parse_members].
    rewrite skip_ws_starts by apply quote_starts.
    rewrite parse_string_quote. reflexivity. }
  destruct ms as [ | m' ms' ].
  - cbn [map join print_member] in *. rewrite length_app in Hf. cbn [length] in Hf.
    rewrite <- app_assoc, <- app_comm_cons, Hkey.
    rewrite Hv; [ reflexivity | lia | reflexivity ].
  - change (join ","%char (map print_member ((k, v) :: m' :: ms')))
      with (print_member (k, v) ++ ","%char :: join ","%char (map print_member (m' :: ms'))) in *.
    set (more := join ","%char (map print_member (m' :: ms'))) in *.
    assert (Hlen : length (print_member (k, v) ++ ","%char :: more)
                   = (length (quote k) + S (length (print v)) + S (length more))%nat).
    { unfold print_member. rewrite !length_app. cbn [length].
      rewrite ?length_app. cbn [length]. lia. }
    unfold print_member at 1.
    rewrite <- ?app_assoc, <- ?app_comm_cons, <- ?app_assoc, <- ?app_comm_cons.
    rewrite (Hkey (","%char :: more ++ "}"%char :: rest)).
    rewrite Hv; [ | lia | reflexivity ].
    cbn [and_then skip_ws]. change (is_ws ","%char) with false. cbv iota.
    change (Ascii.eqb ","%char ","%char) with true. cbv iota.
    rewrite IH; [ reflexivity | discriminate | lia ].
Qed.

Lemma print_array vs :
  print (JArr vs) = "["%char :: join ","%char (map print vs) ++ ["]"%char].
Proof. reflexivity. Qed.

Lemma print_object ms :
  print (JObj ms) = "{"%char :: join ","%char (map print_member ms) ++ ["}"%char].
Proof. reflexivity. Qed.

Lemma join_starts (parts : list (list ascii)) rest :
  parts <> [] -> Forall (fun p => forall r, starts_value (p ++ r)) parts ->
  starts_value (join ","%char parts ++ rest).
Proof.
  intros Hne Hall. destruct Hall as [ | p ps Hp Hps ]; [ congruence | ].
  destruct ps; simpl join; [ apply Hp | rewrite <- app_assoc; apply Hp ].
Qed.

(** Every printed value is read back, whatever follows it. *)
Lemma parse_value_print v : value_ok v.
Proof.
  induction v as [ | b | z | s | vs IH | ms IH ] using json_ind.
  - apply parse_value_scalar_null.
  - apply parse_value_scalar_bool.
  - apply parse_value_scalar_num.
  - apply parse_value_scalar_str.
  - intros [ | fuel ] rest Hf _; [ simpl in Hf; lia | ].
    rewrite print_array in *. rewrite <- app_comm_cons, <- app_assoc in *.
    rewrite parse_value_array. simpl app.
    destruct vs as [ | v vs ]; [ reflexivity | ].
    assert (Hs : starts_value (join ","%char (map print (v :: vs)) ++ "]"%char :: rest)).
    { apply join_starts; [ discriminate | ].
      apply List.Forall_forall. intros p Hp r. apply in_map_iff in Hp as (x & <- & _).
      apply print_starts. }
    rewrite (skip_ws_starts _ Hs).
    destruct (join ","%char (map print (v :: vs)) ++ "]"%char :: rest) as [ | c tl ] eqn:E;
      [ destruct Hs | ].
    destruct (value_start_solid c Hs) as (_ & -> & _). rewrite <- E.
    rewrite parse_elements_print; [ reflexivity | exact IH | discriminate | ].
    cbn [length] in Hf. rewrite length_app in Hf. cbn [length] in Hf. lia.
  - intros [ | fuel ] rest Hf _; [ simpl in Hf; lia | ].
    rewrite print_object in *. rewrite <- app_comm_cons, <- app_assoc in *.
    rewrite parse_value_object. simpl app.
    destruct ms as [ | m ms ]; [ reflexivity | ].
    assert (Hs : starts_value (join ","%char (map print_member (m :: ms)) ++ "}"%char :: rest)).
    { apply join_starts; [ discriminate | ].
      apply List.Forall_forall. intros p Hp r. apply in_map_iff in Hp as ([k x] & <- & _).
      unfold print_member. rewrite <- app_assoc. apply quote_starts. }
    rewrite (skip_ws_starts _ Hs).
    destruct (join ","%char (map print_member (m :: ms)) ++ "}"%char :: rest) as [ | c tl ] eqn:E;
      [ destruct Hs | ].
    destruct (value_start_solid c Hs) as (_ & _ & ->). rewrite <- E.
    rewrite parse_members_print; [ reflexivity | exact IH | discriminate | ].
    cbn [length] in Hf. rewrite length_app in Hf. cbn [length] in Hf. lia.
Qed.

(** [JSON.parse(JSON.stringify(v))] gives [v] back. *)
Lemma parse_stringify v : parse (stringify v) = Ok v.
Proof.
  unfold parse, stringify. rewrite list_ascii_of_string_of_list_ascii.
  rewrite <- (app_nil_r (print v)) at 2.
  rewrite parse_value_print; [ reflexivity | lia | reflexivity ].
Qed.

(** A printed value is never the empty text. *)
Lemma stringify_nonempty v : String.eqb (stringify v) "" = false.
Proof.
  unfold stringify. pose proof (print_starts v []) as H. rewrite app_nil_r in H.
  destruct (print v); [ destruct H | reflexivity ].
Qed.

End JSONFacts.
(** * Facts about computations over the world *)
Module EnvFacts.
Import Env.

Lemma reads_only_ret {A : Type} (a : A) : reads_only (mret a).
Proof. intros w. reflexivity. Qed.

Lemma reads_only_throw {A : Type} (e : exn) : reads_only (@throw A e).
Proof. intros w. reflexivity. Qed.

Lemma reads_only_unmodelled {A : Type} : reads_only (@unmodelled A).
Proof. intros w. reflexivity. Qed.

Lemma reads_only_bind {A B : Type} (m : M A) (f : A -> M B) :
  reads_only m -> (forall a, reads_only (f a)) -> reads_only (m ≫= f).
Proof.
  intros Hm Hf w. specialize (Hm w). unfold exec, mbind, M_bind, bind in *.
  destruct (m w) as [[a | e | ] w']; simpl in Hm; subst w'; [ apply Hf | | ]; reflexivity.
Qed.

Lemma reads_only_try_catch {A : Type} (body : M A) (handler : exn -> M A) :
  reads_only body -> (forall e, reads_only (handler e)) ->
  reads_only (try_catch body handler).
Proof.
  intros Hb Hh w. specialize (Hb w). unfold exec, try_catch in *.
  destruct (body w) as [[a | e | ] w']; simpl in Hb; subst w'; [ | apply Hh | ]; reflexivity.
Qed.

Lemma reads_only_Date_now : reads_only Date_now.
Proof. intros w. reflexivity. Qed.

Lemma reads_only_getItem key : reads_only (AsyncStorage_getItem key).
Proof. intros w. unfold exec, AsyncStorage_getItem. now destruct (read_fails w). Qed.

Lemma reads_only_JSON_parse text : reads_only (JSON_parse text).
Proof. intros w. unfold exec, JSON_parse. now destruct (JSON.parse text). Qed.

Create HintDb reads.

#[export] Hint Resolve reads_only_ret reads_only_throw reads_only_unmodelled
  reads_only_Date_now reads_only_getItem reads_only_JSON_parse : reads.

(** Splits a computation along its binds, handlers and branches. *)
Ltac reads_only :=
  repeat first
    [ solve [ auto with reads ]
    | apply reads_only_bind; [ | intros ? ]
    | apply reads_only_try_catch; [ | intros ? ]
    | match goal with
      | |- reads_only (if ?b then _ else _) => destruct b
      | |- reads_only (match ?x with _ => _ end) => destruct x
      end ].

End EnvFacts.

(** * Facts about the storage service *)
Module StorageFacts.
Import JSON Env Storage EnvFacts.
Local Open Scope string_scope.

Lemma as_strings_map (l : list string) : as_strings (map JStr l) = Some l.
Proof. induction l as [ | s l IH ]; simpl; [ | rewrite IH ]; reflexivity. Qed.

Lemma truthy_stringify v : truthy (Some (stringify v)) = true.
Proof. unfold truthy. now rewrite JSONFacts.stringify_nonempty. Qed.

Lemma JSON_parse_stringify v : JSON_parse (stringify v) = mret v.
Proof. unfold JSON_parse. now rewrite JSONFacts.parse_stringify. Qed.

(** A write that goes through stores the text of the array. *)
Lemma saveBookmarks_written w (bookmarks : list string) :
  write_fails w = false ->
  saveBookmarks bookmarks w
  = (Returned tt,
     set_disk (<[KEYS.BOOKMARKS := stringify (JArr (map JStr bookmarks))]> (disk w)) w).
Proof.
  intros Hw. unfold saveBookmarks, try_catch, AsyncStorage_setItem.
  now rewrite Hw.
Qed.

(** A write that fails is swallowed by the [catch]: the call returns
    normally and the store is as before. *)
Lemma saveBookmarks_swallows w (bookmarks : list string) :
  write_fails w = true -> saveBookmarks bookmarks w = (Returned tt, w).
Proof.
  intros Hw. unfold saveBookmarks, try_catch, AsyncStorage_setItem.
  now rewrite Hw.
Qed.

Lemma saveBookmarks_returns w (bookmarks : list string) :
  run (saveBookmarks bookmarks) w = Returned tt.
Proof.
  unfold run. destruct (write_fails w) eqn:Hw;
    [ now rewrite (saveBookmarks_swallows w bookmarks Hw)
    | now rewrite (saveBookmarks_written w bookmarks Hw) ].
Qed.

Lemma loadBookmarks_stored w (bookmarks : list string) :
  read_fails w = false ->
  disk w !! KEYS.BOOKMARKS = Some (stringify (JArr (map JStr bookmarks))) ->
  loadBookmarks w = (Returned bookmarks, w).
Proof.
  intros Hr Hd. unfold loadBookmarks, try_catch, mbind, M_bind, bind.
  unfold AsyncStorage_getItem. rewrite Hr, Hd, truthy_stringify.
  cbn [default from_option id]. rewrite JSON_parse_stringify. cbn.
  now rewrite as_strings_map.
Qed.

Lemma loadBookmarks_nothing_stored w :
  disk w !! KEYS.BOOKMARKS = None -> loadBookmarks w = (Returned [], w).
Proof.
  intros Hd. unfold loadBookmarks, try_catch, mbind, M_bind, bind.
  unfold AsyncStorage_getItem. destruct (read_fails w); [ reflexivity | ].
  now rewrite Hd.
Qed.

Lemma cacheNews_written w news :
  write_fails w = false ->
  cacheNews news w
  = (Returned tt,
     set_disk
       (<[KEYS.NEWS_CACHE :=
            stringify (JObj [("data", news); ("timestamp", JNum (clock w))])]>
          (disk w)) w).
Proof.
  intros Hw. unfold cacheNews, try_catch, mbind, M_bind, bind, Date_now.
  unfold AsyncStorage_setItem. now rewrite Hw.
Qed.

Lemma reads_only_get_prop parsed key : reads_only (get_prop parsed key).
Proof. unfold get_prop. reads_only. Qed.

Lemma reads_only_ToNumber v : reads_only (ToNumber v).
Proof. unfold ToNumber. reads_only. Qed.

#[export] Hint Resolve reads_only_get_prop reads_only_ToNumber : reads.

(** Reading the cache never writes: the world after the call is the world
    before it. *)
Lemma loadCachedNews_reads_only : reads_only loadCachedNews.
Proof. unfold loadCachedNews. reads_only. Qed.

Lemma loadBookmarks_reads_only : reads_only loadBookmarks.
Proof. unfold loadBookmarks, as_string_array. reads_only. Qed.

(** What a read of an entry written by [cacheNews] at [createdAt] returns:
    [null] once more than 24 hours have passed, the payload before. *)
Lemma loadCachedNews_entry w news (createdAt : Z) :
  read_fails w = false ->
  disk w !! KEYS.NEWS_CACHE
  = Some (stringify (JObj [("data", news); ("timestamp", JNum createdAt)])) ->
  run loadCachedNews w
  = Returned (J (if (24 * 60 * 60 * 1000 <? clock w - createdAt)%Z
                 then JNull else news)).
Proof.
  intros Hr Hd. unfold run, loadCachedNews, try_catch, mbind, M_bind, bind.
  unfold AsyncStorage_getItem. rewrite Hr, Hd, truthy_stringify.
  cbn [default from_option id]. rewrite JSON_parse_stringify.
  cbn -[Z.mul Z.ltb Z.sub]. 
  destruct (24 * 60 * 60 * 1000 <? clock w - createdAt)%Z; reflexivity.
Qed.

(** The entry that [cacheNews] leaves on disk, and what a later read of it
    returns. *)
Lemma cacheNews_entry w news (createdAt now : Z) :
  write_fails w = false ->
  disk (set_clock now (exec (cacheNews news) (set_clock createdAt w))) !! KEYS.NEWS_CACHE
  = Some (stringify (JObj [("data", news); ("timestamp", JNum createdAt)])).
Proof.
  intros Hw. unfold exec. rewrite cacheNews_written by exact Hw.
  cbn. apply lookup_insert_eq.
Qed.

Lemma loadCachedNews_after_cacheNews w news (createdAt now : Z) :
  write_fails w = false -> read_fails w = false ->
  run loadCachedNews (set_clock now (exec (cacheNews news) (set_clock createdAt w)))
  = Returned (J (if (24 * 60 * 60 * 1000 <? now - createdAt)%Z then JNull else news)).
Proof.
  intros Hw Hr.
  rewrite (loadCachedNews_entry _ news createdAt);
    [ reflexivity | | now apply cacheNews_entry ].
  unfold exec. rewrite cacheNews_written by exact Hw. exact Hr.
Qed.

End StorageFacts.

(** * Facts about the bookmarks slice *)
Module BookmarksFacts.
Import Env Bookmarks EnvFacts.
Local Open Scope string_scope.

Lemma includes_In (x : string) (l : list string) : includes x l = true <-> In x l.
Proof.
  unfold includes. rewrite existsb_exists. split.
  - intros (y & Hy & E). apply String.eqb_eq in E. now subst y.
  - intros H. exists x. split; [ exact H | apply String.eqb_refl ].
Qed.

Lemma includes_not_In (x : string) (l : list string) :
  includes x l = false <-> ~ In x l.
Proof.
  rewrite <- includes_In. destruct (includes x l); split; congruence.
Qed.

(** Filtering out an id that is not there keeps the array as it is. *)
Lemma filter_absent (x : string) (l : list string) :
  ~ In x l -> List.filter (fun id => negb (String.eqb id x)) l = l.
Proof.
  induction l as [ | y l IH ]; [ reflexivity | ]. intros H. simpl.
  destruct (String.eqb_spec y x) as [-> | Hne].
  - exfalso. apply H. now left.
  - simpl. f_equal. apply IH. intros Hx. apply H. now right.
Qed.

Lemma filter_removes (x : string) (l : list string) :
  ~ In x (List.filter (fun id => negb (String.eqb id x)) l).
Proof.
  rewrite filter_In. intros [_ H]. now rewrite String.eqb_refl in H.
Qed.

Lemma addBookmark_present now state articleId :
  includes articleId (items state) = true ->
  bookmarksReducer now state (addBookmark articleId) = state.
Proof. intros H. simpl. now rewrite H. Qed.

Lemma addBookmark_absent now state articleId :
  includes articleId (items state) = false ->
  items (bookmarksReducer now state (addBookmark articleId))
  = (items state ++ [articleId])%list.
Proof. intros H. simpl. now rewrite H. Qed.

Lemma addBookmark_includes now state articleId :
  includes articleId (items (bookmarksReducer now state (addBookmark articleId))) = true.
Proof.
  destruct (includes articleId (items state)) eqn:H.
  - now rewrite addBookmark_present.
  - rewrite addBookmark_absent by exact H. apply includes_In, in_or_app.
    right. now left.
Qed.

(** The invariant of the bookmark set: no id occurs twice.  Every action of
    the slice other than the two [fulfilled] ones, whose array comes from
    outside, keeps it. *)
Lemma addBookmark_NoDup now state articleId :
  List.NoDup (items state) ->
  List.NoDup (items (bookmarksReducer now state (addBookmark articleId))).
Proof.
  intros Hnd. destruct (includes articleId (items state)) eqn:H.
  - now rewrite addBookmark_present.
  - rewrite addBookmark_absent by exact H.
    apply includes_not_In in H. apply List.NoDup_app; [ exact Hnd | | ].
    + constructor; [ intros [] | constructor ].
    + intros x Hx [<- | []]. now apply H.
Qed.

Lemma removeBookmark_NoDup now state articleId :
  List.NoDup (items state) ->
  List.NoDup (items (bookmarksReducer now state (removeBookmark articleId))).
Proof. intros Hnd. simpl. now apply List.NoDup_filter. Qed.

Lemma add_all_NoDup adds state :
  List.NoDup (items state) -> List.NoDup (items (add_all adds state)).
Proof.
  revert state. induction adds as [ | [now articleId] adds IH ]; intros state Hnd;
    [ exact Hnd | ].
  simpl. apply IH. now apply addBookmark_NoDup.
Qed.

Lemma count_occ_once (x : string) (l : list string) :
  List.NoDup l -> In x l -> count_occ string_dec l x = 1%nat.
Proof.
  intros Hnd Hin. now apply (proj1 (List.NoDup_count_occ' string_dec l) Hnd).
Qed.

(** Dispatching a plain action only reads the clock. *)
Lemma dispatch_reads_only action state : reads_only (dispatch action state).
Proof. unfold dispatch. reads_only. Qed.

#[export] Hint Resolve dispatch_reads_only : reads.

(** The [rejected] case of the save thunk keeps the array that was in
    memory before the save and records the message. *)
Lemma saveBookmarksAsync_rejected_case now state payload :
  let state' := bookmarksReducer now state (saveBookmarksAsync_rejected payload) in
  items state' = items state /\ error state' = payload /\ isLoading state' = false.
Proof. repeat split. Qed.

(** The payload creator of the save thunk never reaches its own [catch]:
    [saveBookmarks] has already swallowed the failure. *)
Lemma saveBookmarksAsync_always_fulfilled (bookmarks : list string) state w :
  saveBookmarksAsync bookmarks state w
  = (Returned {| items := bookmarks; isLoading := false; error := None;
                 lastUpdated := Some (clock (exec (Storage.saveBookmarks bookmarks) w)) |},
     exec (Storage.saveBookmarks bookmarks) w).
Proof.
  unfold saveBookmarksAsync, createAsyncThunk, dispatch, try_catch, exec.
  unfold mbind, M_bind, bind, mret, M_ret, ret, Date_now. cbn.
  pose proof (StorageFacts.saveBookmarks_returns w bookmarks) as H. unfold run in H.
  destruct (Storage.saveBookmarks bookmarks w) as [o w']. simpl in H. subst o.
  reflexivity.
Qed.

End BookmarksFacts.

(** * Facts about the screens *)
Module ScreensFacts.
Import Env Bookmarks Types Selectors Rendering EnvFacts BookmarksFacts.

(** Pressing the star only dispatches a plain action: nothing is written. *)
Lemma handleBookmarkToggle_reads_only bookmarkItems articleId state :
  reads_only (HeadlinesScreen.handleBookmarkToggle bookmarkItems articleId state).
Proof. unfold HeadlinesScreen.handleBookmarkToggle. reads_only. Qed.

(** What a restarted application loads does not depend on a toggle that
    happened before the restart. *)
Lemma restart_forgets_toggle bookmarkItems articleId state w :
  loadBookmarksAsync tt initialState
    (exec (HeadlinesScreen.handleBookmarkToggle bookmarkItems articleId state) w)
  = loadBookmarksAsync tt initialState w.
Proof. now rewrite handleBookmarkToggle_reads_only. Qed.

(** While the query reports an error the headlines screen shows no card,
    whatever data the hook still holds. *)
Lemma HeadlinesScreen_error_hides_list state query :
  hook_error query = true -> cards_of (HeadlinesScreen.render state query) = [].
Proof.
  intros H. unfold HeadlinesScreen.render. rewrite H.
  now destruct (_ && _).
Qed.

End ScreensFacts.

(** * The properties of the specification *)

Import JSON Env Storage Bookmarks Types NewsApi Selectors Rendering Examples.
Import EnvFacts StorageFacts BookmarksFacts.
Local Open Scope string_scope.
Local Open Scope Z_scope.

(** ** Bookmarks and persistence *)

(** C1: a bookmark added through a screen is expected to be on disk when
    the operation returns, so that it survives a restart.  Evaluated on a
    fresh device: after the toggle the id is in the in-memory set, nothing
    has been written under the bookmarks key, and the set that a restarted
    application loads does not contain the id. *)
Theorem added_bookmark_is_lost_on_restart :
  let toggle :=
    HeadlinesScreen.handleBookmarkToggle (items initialState) "a1" initialState in
  run toggle fresh_device
  = Returned {| items := ["a1"]; isLoading := false; error := None;
                lastUpdated := Some 1700000000000 |}
  /\ disk (exec toggle fresh_device) !! KEYS.BOOKMARKS = None
  /\ run (loadBookmarksAsync tt initialState) (exec toggle fresh_device)
     = Returned {| items := []; isLoading := false; error := None;
                   lastUpdated := Some 1700000000000 |}
  /\ includes "a1" [] = false.
Proof. cbv zeta. repeat apply conj; vm_compute; reflexivity. Qed.

(** C2: a save whose write fails is expected to leave the in-memory set at
    its value before the save and to set the error state.  Evaluated on a
    device that rejects writes: the thunk ends in its [fulfilled] case, the
    set in memory is the one that could not be written, no error is
    recorded and the disk holds nothing. *)
Theorem failed_save_goes_unnoticed :
  let save := saveBookmarksAsync ["a1"] initialState in
  run save read_only_device
  = Returned {| items := ["a1"]; isLoading := false; error := None;
                lastUpdated := Some 1700000000000 |}
  /\ disk (exec save read_only_device) !! KEYS.BOOKMARKS = None.
Proof. cbv zeta. repeat apply conj; vm_compute; reflexivity. Qed.

(** ** The news cache *)

(** C3: an entry cached at [createdAt] is returned by every read at a time
    [now] with [now - createdAt] within the time to live, which is 24 hours
    for every entry, and a later read returns [null]. *)
Theorem cache_respects_time_to_live (w : World) (news : json) (createdAt now : Z) :
  write_fails w = false -> read_fails w = false ->
  let stored := exec (cacheNews news) (set_clock createdAt w) in
  (now - createdAt <= 24 * 60 * 60 * 1000 ->
   run loadCachedNews (set_clock now stored) = Returned (J news))
  /\ (now - createdAt > 24 * 60 * 60 * 1000 ->
      run loadCachedNews (set_clock now stored) = Returned (J JNull)).
Proof.
  intros Hw Hr stored. subst stored.
  rewrite (loadCachedNews_after_cacheNews w news createdAt now Hw Hr).
  split; intros H.
  - destruct (Z.ltb_spec (24 * 60 * 60 * 1000) (now - createdAt)); [ lia | reflexivity ].
  - destruct (Z.ltb_spec (24 * 60 * 60 * 1000) (now - createdAt)); [ reflexivity | lia ].
Qed.

Lemma cache_respects_time_to_live_witness :
  let stored := exec (cacheNews (JArr [JStr "headline"])) (set_clock 0 fresh_device) in
  write_fails fresh_device = false /\ read_fails fresh_device = false
  /\ run loadCachedNews (set_clock 86400000 stored)
     = Returned (J (JArr [JStr "headline"]))
  /\ run loadCachedNews (set_clock 86400001 stored) = Returned (J JNull).
Proof.
  cbv zeta. split; [ reflexivity | ]. split; [ reflexivity | ]. split.
  - apply (cache_respects_time_to_live fresh_device (JArr [JStr "headline"]) 0 86400000);
      [ reflexivity | reflexivity | lia ].
  - apply (cache_respects_time_to_live fresh_device (JArr [JStr "headline"]) 0 86400001);
      [ reflexivity | reflexivity | lia ].
Defined.

(** C4, as stated: a read that finds an expired entry deletes it.  On a
    fresh device an entry is cached at time 0 and read one millisecond after
    its 24 hours: the read returns [null], and the entry is still stored
    under its key. *)
Lemma expired_entry_survives_the_read :
  let expired :=
    set_clock 86400001
      (exec (cacheNews (JArr [JStr "headline"])) (set_clock 0 fresh_device)) in
  run loadCachedNews expired = Returned (J JNull)
  /\ disk (exec loadCachedNews expired) !! KEYS.NEWS_CACHE
     = Some (stringify (JObj [("data", JArr [JStr "headline"]);
                              ("timestamp", JNum 0)])).
Proof. cbv zeta. split; vm_compute; reflexivity. Qed.

(** C4, amended: a read that finds an expired entry returns [null] and
    leaves the store as it is; the expired entry stays under its key. *)
Theorem expired_read_leaves_the_entry (w : World) (news : json) (createdAt now : Z) :
  write_fails w = false -> read_fails w = false ->
  now - createdAt > 24 * 60 * 60 * 1000 ->
  let expired := set_clock now (exec (cacheNews news) (set_clock createdAt w)) in
  run loadCachedNews expired = Returned (J JNull)
  /\ exec loadCachedNews expired = expired
  /\ disk (exec loadCachedNews expired) !! KEYS.NEWS_CACHE
     = Some (stringify (JObj [("data", news); ("timestamp", JNum createdAt)])).
Proof.
  intros Hw Hr Hlate expired.
  rewrite (loadCachedNews_reads_only expired).
  split; [ | split; [ reflexivity | now apply cacheNews_entry ] ].
  subst expired. rewrite (loadCachedNews_after_cacheNews w news createdAt now Hw Hr).
  destruct (Z.ltb_spec (24 * 60 * 60 * 1000) (now - createdAt)); [ reflexivity | lia ].
Qed.

Lemma expired_read_leaves_the_entry_witness :
  let expired :=
    set_clock 86400001
      (exec (cacheNews (JArr [JStr "headline"])) (set_clock 0 fresh_device)) in
  write_fails fresh_device = false /\ read_fails fresh_device = false
  /\ 86400001 - 0 > 24 * 60 * 60 * 1000
  /\ run loadCachedNews expired = Returned (J JNull)
  /\ exec loadCachedNews expired = expired
  /\ disk (exec loadCachedNews expired) !! KEYS.NEWS_CACHE
     = Some (stringify (JObj [("data", JArr [JStr "headline"]);
                              ("timestamp", JNum 0)])).
Proof.
  cbv zeta. split; [ reflexivity | ]. split; [ reflexivity | ]. split; [ lia | ].
  apply (expired_read_leaves_the_entry fresh_device (JArr [JStr "headline"]) 0 86400001);
    [ reflexivity | reflexivity | lia ].
Defined.

(** C5, as stated: when the fetch fails and a stale entry is cached, the
    stale list is returned instead of an error.  An entry is cached at time
    0; at 24 hours and two seconds the fetch times out.  The entry is still
    on disk, yet the headlines query ends in the error of the fetch, and the
    cache itself answers [null] for the stale entry. *)
Lemma stale_entry_is_not_served :
  let stale :=
    set_clock 86402000
      (exec (cacheNews (JArr [JStr "headline"])) (set_clock 0 fresh_device)) in
  disk stale !! KEYS.NEWS_CACHE
  = Some (stringify (JObj [("data", JArr [JStr "headline"]); ("timestamp", JNum 0)]))
  /\ run (getHeadlines offline default_params) stale = Returned (QueryError TIMEOUT_ERROR)
  /\ run loadCachedNews stale = Returned (J JNull).
Proof. cbv zeta. repeat apply conj; vm_compute; reflexivity. Qed.

(** C5, amended: when the fetch fails, the headlines query yields the error
    of the fetch, also when a stale entry is cached; the stale entry is not
    returned in its place, and the cache itself answers [null] for an entry
    older than 24 hours. *)
Theorem fetch_error_is_surfaced (w : World)
    (baseQuery : string -> QueryReturnValue NewsApiResponse)
    (arg : NewsQueryParams) (error : FetchBaseQueryError) :
  baseQuery (getHeadlines_query arg) = QueryError error ->
  getHeadlines baseQuery arg w = (Returned (QueryError error), w)
  /\ forall (news : json) (createdAt : Z),
       read_fails w = false ->
       disk w !! KEYS.NEWS_CACHE
       = Some (stringify (JObj [("data", news); ("timestamp", JNum createdAt)])) ->
       clock w - createdAt > 24 * 60 * 60 * 1000 ->
       run loadCachedNews w = Returned (J JNull).
Proof.
  intros Hfetch. split.
  - unfold getHeadlines. now rewrite Hfetch.
  - intros news createdAt Hr Hd Hstale.
    rewrite (loadCachedNews_entry w news createdAt Hr Hd).
    destruct (Z.ltb_spec (24 * 60 * 60 * 1000) (clock w - createdAt));
      [ reflexivity | lia ].
Qed.

Lemma fetch_error_is_surfaced_witness :
  let stale :=
    set_clock 86402000
      (exec (cacheNews (JArr [JStr "headline"])) (set_clock 0 fresh_device)) in
  offline (getHeadlines_query default_params) = QueryError TIMEOUT_ERROR
  /\ read_fails stale = false
  /\ clock stale - 0 > 24 * 60 * 60 * 1000
  /\ getHeadlines offline default_params stale = (Returned (QueryError TIMEOUT_ERROR), stale)
  /\ run loadCachedNews stale = Returned (J JNull).
Proof.
  cbv zeta. split; [ reflexivity | ]. split; [ reflexivity | ].
  split; [ vm_compute; reflexivity | ].
  pose proof (fetch_error_is_surfaced
                (set_clock 86402000
                   (exec (cacheNews (JArr [JStr "headline"])) (set_clock 0 fresh_device)))
                offline default_params TIMEOUT_ERROR eq_refl) as [Hquery Hcache].
  split; [ exact Hquery | ].
  apply (Hcache (JArr [JStr "headline"]) 0);
    [ reflexivity | vm_compute; reflexivity | vm_compute; reflexivity ].
Defined.

(** ** Serialization of the bookmark set *)

(** C6: loading the bookmarks after saving an array of ids returns the same
    ids in the same order, on a device whose storage works. *)
Theorem bookmarks_round_trip (w : World) (bookmarks : list string) :
  write_fails w = false -> read_fails w = false ->
  run loadBookmarks (exec (saveBookmarks bookmarks) w) = Returned bookmarks.
Proof.
  intros Hw Hr. unfold exec. rewrite saveBookmarks_written by exact Hw.
  unfold run. rewrite (loadBookmarks_stored _ bookmarks); [ reflexivity | exact Hr | ].
  cbn. apply lookup_insert_eq.
Qed.

Lemma bookmarks_round_trip_witness :
  write_fails fresh_device = false /\ read_fails fresh_device = false
  /\ run loadBookmarks
       (exec (saveBookmarks ["https://example.org/a?x=1"; "article-0-1700000000000"])
          fresh_device)
     = Returned ["https://example.org/a?x=1"; "article-0-1700000000000"].
Proof.
  split; [ reflexivity | ]. split; [ reflexivity | ].
  apply (bookmarks_round_trip fresh_device); reflexivity.
Defined.

(** ** The bookmark set *)

(** C7: after any run of add operations the set has no duplicate; adding an
    id leaves exactly one occurrence of it, and adding it a second time
    changes nothing. *)
Theorem add_is_idempotent (adds : list (Z * string)) (now1 now2 : Z) (articleId : string) :
  let state := add_all adds initialState in
  let once := bookmarksReducer now1 state (addBookmark articleId) in
  let twice := bookmarksReducer now2 once (addBookmark articleId) in
  List.NoDup (items state)
  /\ List.NoDup (items twice)
  /\ count_occ string_dec (items twice) articleId = 1%nat
  /\ twice = once.
Proof.
  intros state once twice.
  assert (Hstate : List.NoDup (items state)) by (apply add_all_NoDup; constructor).
  assert (Honce : List.NoDup (items once)) by now apply addBookmark_NoDup.
  assert (Htwice : twice = once) by apply addBookmark_present, addBookmark_includes.
  rewrite Htwice. repeat split; try assumption.
  apply count_occ_once; [ exact Honce | ]. apply includes_In, addBookmark_includes.
Qed.

(** ** Article identity *)

(** C8, as stated: two articles of a transformed response with the same url
    have the same id.  A response with two articles that carry no link:
    both urls are the empty string, and the ids differ. *)
Lemma unlinked_articles_get_different_ids :
  let transformed := getHeadlines_transformResponse 1700000000000 two_unlinked in
  map url transformed = [""; ""]
  /\ map id transformed = ["article-0-1700000000000"; "article-1-1700000000000"]
  /\ ~ (forall a b, In a transformed -> In b transformed -> url a = url b -> id a = id b).
Proof.
  cbv zeta. split; [ vm_compute; reflexivity | ]. split; [ vm_compute; reflexivity | ].
  intros Hsame.
  specialize (Hsame (with_id "article" 1700000000000 0 (unlinked "first"))
                    (with_id "article" 1700000000000 1 (unlinked "second"))).
  discriminate Hsame; [ left | right; left | ]; reflexivity.
Qed.

(** C8, amended: two articles produced by the response transformations, of
    one endpoint or of two, that have the same non-empty url have the same
    id, which is that url. *)
Theorem same_link_same_id (prefix1 prefix2 : string) (now1 now2 : Z)
    (response1 response2 : NewsApiResponse) (a b : Article) :
  In a (transformResponse prefix1 now1 response1) ->
  In b (transformResponse prefix2 now2 response2) ->
  url a = url b -> url a <> "" ->
  id a = id b /\ id a = url a.
Proof.
  assert (Hid : forall prefix now response x,
             In x (transformResponse prefix now response) ->
             url x <> "" -> id x = url x).
  { intros prefix now response x Hx Hurl. unfold transformResponse in Hx.
    apply list_elem_of_In, list_elem_of_lookup in Hx as (i & Hi).
    apply list_lookup_imap_Some in Hi as (article & _ & ->).
    simpl in *. destruct (String.eqb_spec (url article) ""); [ contradiction | reflexivity ]. }
  intros Ha Hb Hsame Hurl.
  rewrite (Hid _ _ _ a Ha Hurl), (Hid _ _ _ b Hb) by now rewrite <- Hsame.
  split; [ exact Hsame | reflexivity ].
Qed.

Lemma same_link_same_id_witness :
  let response :=
    {| status := "ok"; totalResults := 2;
       articles := [linked "https://example.org/a"; unlinked "first"] |} in
  let a := with_id "article" 1700000000000 0 (linked "https://example.org/a") in
  let b := with_id "search" 1700000000777 0 (linked "https://example.org/a") in
  In a (getHeadlines_transformResponse 1700000000000 response)
  /\ In b (searchNews_transformResponse 1700000000777 response)
  /\ url a = url b /\ url a <> ""
  /\ id a = id b /\ id a = url a.
Proof.
  cbv zeta.
  assert (Ha : In (with_id "article" 1700000000000 0 (linked "https://example.org/a"))
                 (getHeadlines_transformResponse 1700000000000
                    {| status := "ok"; totalResults := 2;
                       articles := [linked "https://example.org/a"; unlinked "first"] |}))
    by (left; reflexivity).
  assert (Hb : In (with_id "search" 1700000000777 0 (linked "https://example.org/a"))
                 (searchNews_transformResponse 1700000000777
                    {| status := "ok"; totalResults := 2;
                       articles := [linked "https://example.org/a"; unlinked "first"] |}))
    by (left; reflexivity).
  split; [ exact Ha | ]. split; [ exact Hb | ]. split; [ reflexivity | ].
  split; [ discriminate | ].
  exact (same_link_same_id _ _ _ _ _ _ _ _ Ha Hb eq_refl ltac:(discriminate)).
Defined.

(** ** Rendering *)

(** C9: on the three screens the cards of the rendered list are the shown
    articles, one card for each and in their order, and every card carries
    the flag that the bookmark store gives for the id of its article at the
    moment of rendering, whatever list of articles the query delivered.
    The shown articles are: on the headlines screen the articles of the
    query, unless the first load is still running or the query failed; on
    the search screen the search results, unless a search is running; on
    the bookmarks screen the articles of the feed whose id is in the store,
    unless the bookmarks or the feed are loading. *)
Theorem cards_agree_with_the_store (state : RootState) (query : QueryHook)
    (searchResults : list Article) :
  let shown (card : NewsCardProps) := (article card, Types.isBookmarked card) in
  let from_store (item : Article) := (item, selectIsBookmarked state (id item)) in
  let articles := default [] (data query) in
  map shown (cards_of (HeadlinesScreen.render state query))
  = (if hook_isLoading query && Nat.eqb (length articles) 0 then []
     else if hook_error query then []
     else map from_store articles)
  /\ map shown (cards_of (SearchScreen.render state searchResults query))
     = (if hook_isLoading query || hook_isFetching query then []
        else map from_store searchResults)
  /\ map shown (cards_of (BookmarksScreen.render state query))
     = (if selectBookmarksLoading state || hook_isLoading query then []
        else map from_store
               (List.filter (fun item => selectIsBookmarked state (id item)) articles))
  /\ Forall (joined state) (cards_of (HeadlinesScreen.render state query))
  /\ Forall (joined state) (cards_of (SearchScreen.render state searchResults query))
  /\ Forall (joined state) (cards_of (BookmarksScreen.render state query)).
Proof.
  cbv zeta.
  unfold HeadlinesScreen.render, SearchScreen.render, BookmarksScreen.render.
  split; [ | split; [ | split; [ | split; [ | split ] ] ] ].
  - destruct (_ && _); [ reflexivity | ]. destruct (hook_error query); [ reflexivity | ].
    cbn [cards_of]. rewrite map_map. reflexivity.
  - destruct (_ || _); [ reflexivity | ].
    destruct searchResults as [ | item more ]; [ reflexivity | ].
    cbn [Nat.eqb length cards_of]. rewrite map_map. reflexivity.
  - destruct (_ || _); [ reflexivity | ].
    change (fun article : Article => includes (id article) (selectBookmarkItems state))
      with (fun item : Article => selectIsBookmarked state (id item)).
    destruct (List.filter _ _) as [ | item more ]; [ reflexivity | ].
    cbn [Nat.eqb length cards_of]. rewrite map_map. reflexivity.
  - destruct (_ && _); [ constructor | ]. destruct (hook_error query); [ constructor | ].
    apply Forall_map, Forall_forall. intros item _. reflexivity.
  - destruct (_ || _); [ constructor | ]. destruct (Nat.eqb _ _); [ constructor | ].
    apply Forall_map, Forall_forall. intros item _. reflexivity.
  - destruct (_ || _); [ constructor | ]. destruct (Nat.eqb _ _); [ constructor | ].
    apply Forall_map, Forall_forall. intros item _. reflexivity.
Qed.

(** ** What remove and add leave alone *)

(** C10: removing an id that is not in the set leaves the ids and their
    order as they are and still sets [lastUpdated] to the current time;
    adding an id that is in the set leaves the whole state, [lastUpdated]
    included, as it is. *)
Theorem remove_absent_and_add_present (now : Z) (state : BookmarksState)
    (articleId : string) :
  (includes articleId (items state) = false ->
   let removed := bookmarksReducer now state (removeBookmark articleId) in
   items removed = items state /\ lastUpdated removed = Some now
   /\ isLoading removed = isLoading state /\ error removed = error state)
  /\ (includes articleId (items state) = true ->
      let added := bookmarksReducer now state (addBookmark articleId) in
      added = state
      /\ items added = items state /\ lastUpdated added = lastUpdated state).
Proof.
  split.
  - intros Habsent removed. subst removed. repeat split.
    simpl. apply filter_absent. now apply includes_not_In.
  - intros Hpresent added. subst added.
    rewrite (addBookmark_present now state articleId Hpresent). repeat split.
Qed.

Lemma remove_absent_and_add_present_witness :
  let state := {| items := ["a1"; "b2"]; isLoading := false; error := None;
                  lastUpdated := Some 5 |} in
  (includes "c3" (items initialState) = false
   /\ items (bookmarksReducer 9 initialState (removeBookmark "c3")) = []
   /\ lastUpdated (bookmarksReducer 9 initialState (removeBookmark "c3")) = Some 9)
  /\ (includes "c3" (items state) = false
      /\ items (bookmarksReducer 9 state (removeBookmark "c3")) = ["a1"; "b2"]
      /\ lastUpdated (bookmarksReducer 9 state (removeBookmark "c3")) = Some 9)
  /\ (includes "a1" (items state) = true
      /\ bookmarksReducer 9 state (addBookmark "a1") = state).
Proof.
  cbv zeta. split; [ | split ].
  - assert (Habsent : includes "c3" (items initialState) = false) by reflexivity.
    split; [ exact Habsent | ].
    pose proof (proj1 (remove_absent_and_add_present 9 initialState "c3") Habsent)
      as (Hitems & Hupdated & _).
    split; [ exact Hitems | exact Hupdated ].
  - assert (Habsent : includes "c3" ["a1"; "b2"] = false) by reflexivity.
    split; [ exact Habsent | ].
    pose proof (proj1 (remove_absent_and_add_present 9
                         {| items := ["a1"; "b2"]; isLoading := false; error := None;
                            lastUpdated := Some 5 |} "c3") Habsent)
      as (Hitems & Hupdated & _).
    split; [ exact Hitems | exact Hupdated ].
  - assert (Hpresent : includes "a1" ["a1"; "b2"] = true) by reflexivity.
    split; [ exact Hpresent | ].
    exact (proj1 (proj2 (remove_absent_and_add_present 9
                           {| items := ["a1"; "b2"]; isLoading := false; error := None;
                              lastUpdated := Some 5 |} "a1") Hpresent)).
Defined.

(** * Further properties of the code *)

(** ** Helper facts *)
Module MoreFacts.
Import JSON Env Storage Bookmarks.
Local Open Scope string_scope.

(** A [try] whose handler returns cannot throw. *)
Lemma try_catch_never_throws {A : Type} (body : M A) (a : A) w e :
  run (try_catch body (fun _ => mret a)) w <> Thrown e.
Proof.
  unfold run, try_catch. destruct (body w) as [[x | e' | ] w']; discriminate.
Qed.

Lemma loadBookmarks_fallback w :
  nothing_usable KEYS.BOOKMARKS w -> loadBookmarks w = (Returned [], w).
Proof.
  unfold loadBookmarks, try_catch, mbind, M_bind, bind, AsyncStorage_getItem.
  intros [H | H]; [ now rewrite H | ].
  destruct (read_fails w); [ reflexivity | ].
  destruct H as [-> | [-> | (text & -> & Hp)]]; try reflexivity.
  destruct (truthy (Some text)); [ | reflexivity ].
  unfold JSON_parse. change (default "" (Some text)) with text. now rewrite Hp.
Qed.

Lemma loadCachedNews_fallback w :
  nothing_usable KEYS.NEWS_CACHE w -> loadCachedNews w = (Returned (J JNull), w).
Proof.
  unfold loadCachedNews, try_catch, mbind, M_bind, bind, AsyncStorage_getItem.
  intros [H | H]; [ now rewrite H | ].
  destruct (read_fails w); [ reflexivity | ].
  destruct H as [-> | [-> | (text & -> & Hp)]]; try reflexivity.
  destruct (truthy (Some text)); [ | reflexivity ].
  unfold JSON_parse. change (default "" (Some text)) with text. now rewrite Hp.
Qed.

(** What a read returns depends on the world only through the read flag,
    the text under the key and, for the cache, the clock. *)
Lemma loadBookmarks_depends w1 w2 :
  read_fails w1 = read_fails w2 ->
  disk w1 !! KEYS.BOOKMARKS = disk w2 !! KEYS.BOOKMARKS ->
  run loadBookmarks w1 = run loadBookmarks w2.
Proof.
  intros Hr Hd.
  unfold run, loadBookmarks, try_catch, mbind, M_bind, bind, AsyncStorage_getItem.
  rewrite Hr, Hd. destruct (read_fails w2); [ reflexivity | ].
  destruct (truthy _); [ | reflexivity ].
  unfold JSON_parse. destruct (parse _) as [ parsed | | ]; try reflexivity.
  cbn. unfold as_string_array.
  destruct parsed as [ | b | z | s | vs | ms ]; try reflexivity.
  destruct (as_strings vs); reflexivity.
Qed.

Lemma loadCachedNews_depends w1 w2 :
  read_fails w1 = read_fails w2 ->
  disk w1 !! KEYS.NEWS_CACHE = disk w2 !! KEYS.NEWS_CACHE ->
  clock w1 = clock w2 ->
  run loadCachedNews w1 = run loadCachedNews w2.
Proof.
  intros Hr Hd Hc.
  unfold run, loadCachedNews, try_catch, mbind, M_bind, bind, AsyncStorage_getItem.
  rewrite Hr, Hd. destruct (read_fails w2); [ reflexivity | ].
  destruct (truthy _); [ | reflexivity ].
  unfold JSON_parse. destruct (parse _) as [ parsed | | ]; try reflexivity.
  cbn. rewrite Hc.
  destruct parsed as [ | b | z | s | vs | ms ]; try reflexivity.
  cbn. destruct (member "timestamp" ms) as [ [ | b | z | s | vs | ms' ] | ];
    cbn; try reflexivity;
    repeat match goal with
           | |- context [ if ?c then _ else _ ] => destruct c; cbn
           end;
    try reflexivity; destruct (member "data" ms); reflexivity.
Qed.

(** What a write leaves of the world: the flags and the clock always, and
    every other key. *)
Lemma saveBookmarks_frame w (bookmarks : list string) :
  let w' := exec (saveBookmarks bookmarks) w in
  read_fails w' = read_fails w /\ write_fails w' = write_fails w
  /\ clock w' = clock w
  /\ forall key, key <> KEYS.BOOKMARKS -> disk w' !! key = disk w !! key.
Proof.
  unfold exec, saveBookmarks, try_catch, AsyncStorage_setItem.
  destruct (write_fails w) eqn:Hw; cbn; rewrite ?Hw; repeat split.
  intros key Hk. now apply lookup_insert_ne.
Qed.

Lemma cacheNews_frame w news :
  let w' := exec (cacheNews news) w in
  read_fails w' = read_fails w /\ write_fails w' = write_fails w
  /\ clock w' = clock w
  /\ forall key, key <> KEYS.NEWS_CACHE -> disk w' !! key = disk w !! key.
Proof.
  unfold exec, cacheNews, try_catch, mbind, M_bind, bind, Date_now, AsyncStorage_setItem.
  destruct (write_fails w) eqn:Hw; cbn; rewrite ?Hw; repeat split.
  intros key Hk. now apply lookup_insert_ne.
Qed.

End MoreFacts.

Import MoreFacts.

(** ** The storage service *)

(** X1: [loadBookmarks] never throws, and it answers the empty list when
    the read fails, the key is missing, the stored text is empty or the
    stored text is not JSON; the store is left as it is. *)
Theorem loadBookmarks_falls_back_to_empty (w : World) :
  (forall e, run loadBookmarks w <> Thrown e)
  /\ (nothing_usable KEYS.BOOKMARKS w -> loadBookmarks w = (Returned [], w)).
Proof.
  split; [ intros e; apply (try_catch_never_throws _ []) | apply loadBookmarks_fallback ].
Qed.

Lemma loadBookmarks_falls_back_to_empty_witness :
  let damaged := set_disk {[ KEYS.BOOKMARKS := "[1,2" ]} fresh_device in
  nothing_usable KEYS.BOOKMARKS damaged
  /\ loadBookmarks damaged = (Returned [], damaged).
Proof.
  cbv zeta.
  assert (H : nothing_usable KEYS.BOOKMARKS
                (set_disk {[ KEYS.BOOKMARKS := "[1,2" ]} fresh_device)).
  { right. right. right. exists "[1,2". split; vm_compute; reflexivity. }
  split; [ exact H | ].
  exact (proj2 (loadBookmarks_falls_back_to_empty _) H).
Defined.

(** X2: a write that fails is swallowed by both writers: [saveBookmarks]
    and [cacheNews] return normally and the store keeps what it held. *)
Theorem failed_writes_are_swallowed (w : World) (bookmarks : list string) (news : json) :
  write_fails w = true ->
  saveBookmarks bookmarks w = (Returned tt, w) /\ cacheNews news w = (Returned tt, w).
Proof.
  intros Hw. split; [ now apply saveBookmarks_swallows | ].
  unfold cacheNews, try_catch, mbind, M_bind, bind, Date_now, AsyncStorage_setItem.
  now rewrite Hw.
Qed.

Lemma failed_writes_are_swallowed_witness :
  write_fails read_only_device = true
  /\ saveBookmarks ["a1"] read_only_device = (Returned tt, read_only_device)
  /\ cacheNews (JArr [JStr "headline"]) read_only_device = (Returned tt, read_only_device).
Proof.
  split; [ reflexivity | ].
  apply (failed_writes_are_swallowed read_only_device); reflexivity.
Defined.

(** X3: the two keys do not interfere: saving bookmarks does not change
    what the cache returns, and caching news does not change the bookmarks
    that are loaded, whether the write goes through or not. *)
Theorem bookmarks_and_cache_are_independent (w : World) (bookmarks : list string)
    (news : json) :
  run loadCachedNews (exec (saveBookmarks bookmarks) w) = run loadCachedNews w
  /\ run loadBookmarks (exec (cacheNews news) w) = run loadBookmarks w.
Proof.
  split.
  - destruct (saveBookmarks_frame w bookmarks) as (Hr & _ & Hc & Hd).
    apply loadCachedNews_depends; [ exact Hr | now apply Hd | exact Hc ].
  - destruct (cacheNews_frame w news) as (Hr & _ & _ & Hd).
    apply loadBookmarks_depends; [ exact Hr | now apply Hd ].
Qed.

(** X4: the cache holds one entry, and the last write wins: after two
    calls of [cacheNews] a read returns the second payload, and its 24 hours
    count from the second call. *)
Theorem latest_cache_entry_wins (w : World) (first second : json) (t1 t2 now : Z) :
  write_fails w = false -> read_fails w = false ->
  let once := exec (cacheNews first) (set_clock t1 w) in
  let twice := exec (cacheNews second) (set_clock t2 once) in
  run loadCachedNews (set_clock now twice)
  = Returned (J (if 24 * 60 * 60 * 1000 <? now - t2 then JNull else second)).
Proof.
  intros Hw Hr once twice.
  destruct (cacheNews_frame (set_clock t1 w) first) as (Hr1 & Hw1 & _ & _).
  apply (loadCachedNews_after_cacheNews once second t2 now).
  - subst once. now rewrite Hw1.
  - subst once. now rewrite Hr1.
Qed.

Lemma latest_cache_entry_wins_witness :
  let once := exec (cacheNews (JStr "monday")) (set_clock 0 fresh_device) in
  let twice := exec (cacheNews (JStr "tuesday")) (set_clock 86400000 once) in
  write_fails fresh_device = false /\ read_fails fresh_device = false
  /\ run loadCachedNews (set_clock 90000000 twice)
     = Returned (J (if 24 * 60 * 60 * 1000 <? 90000000 - 86400000
                    then JNull else JStr "tuesday")).
Proof.
  cbv zeta. split; [ reflexivity | ]. split; [ reflexivity | ].
  apply (latest_cache_entry_wins fresh_device (JStr "monday") (JStr "tuesday")
           0 86400000 90000000); reflexivity.
Defined.

(** X5: [loadCachedNews] never throws, and it answers [null] when the read
    fails, the key is missing, the stored text is empty or not JSON, and
    when the stored text is the JSON [null]. *)
Theorem loadCachedNews_falls_back_to_null (w : World) :
  (forall e, run loadCachedNews w <> Thrown e)
  /\ (nothing_usable KEYS.NEWS_CACHE w \/
      (read_fails w = false /\ disk w !! KEYS.NEWS_CACHE = Some (stringify JNull)) ->
      loadCachedNews w = (Returned (J JNull), w)).
Proof.
  split; [ intros e; apply (try_catch_never_throws _ (J JNull)) | ].
  intros [H | [Hr Hd]]; [ now apply loadCachedNews_fallback | ].
  unfold loadCachedNews, try_catch, mbind, M_bind, bind, AsyncStorage_getItem.
  rewrite Hr, Hd. reflexivity.
Qed.

Lemma loadCachedNews_falls_back_to_null_witness :
  let emptied := set_disk {[ KEYS.NEWS_CACHE := stringify JNull ]} fresh_device in
  read_fails emptied = false
  /\ disk emptied !! KEYS.NEWS_CACHE = Some (stringify JNull)
  /\ loadCachedNews emptied = (Returned (J JNull), emptied).
Proof.
  cbv zeta. split; [ reflexivity | ]. split; [ vm_compute; reflexivity | ].
  apply (proj2 (loadCachedNews_falls_back_to_null
                  (set_disk {[ KEYS.NEWS_CACHE := stringify JNull ]} fresh_device))).
  right. split; vm_compute; reflexivity.
Defined.

(** X6: an entry without a [timestamp] never expires: the subtraction gives
    NaN, the comparison with the limit is false, and the read returns the
    [data] of the entry at every time. *)
Theorem entry_without_timestamp_never_expires (w : World)
    (ms : list (string * json)) (news : json) :
  read_fails w = false ->
  disk w !! KEYS.NEWS_CACHE = Some (stringify (JObj ms)) ->
  member "timestamp" ms = None -> member "data" ms = Some news ->
  forall now, run loadCachedNews (set_clock now w) = Returned (J news).
Proof.
  intros Hr Hd Hts Hdata now.
  unfold run, loadCachedNews, try_catch, mbind, M_bind, bind, AsyncStorage_getItem.
  cbn [read_fails disk set_clock]. rewrite Hr, Hd, truthy_stringify.
  change (default "" (Some ?x)) with x. rewrite JSON_parse_stringify.
  cbn. rewrite Hts. cbn. now rewrite Hdata.
Qed.

Lemma entry_without_timestamp_never_expires_witness :
  let undated :=
    set_disk {[ KEYS.NEWS_CACHE := stringify (JObj [("data", JStr "headline")]) ]}
      fresh_device in
  read_fails undated = false
  /\ run loadCachedNews (set_clock 99999999999999 undated)
     = Returned (J (JStr "headline")).
Proof.
  cbv zeta. split; [ reflexivity | ].
  apply (entry_without_timestamp_never_expires _ [("data", JStr "headline")]);
    vm_compute; reflexivity.
Defined.

(** ** The thunks of the bookmarks slice *)

Module ThunkFacts.
Import JSON Env Storage Bookmarks.

(** The load thunk ends the way [loadBookmarks] ends. *)
Lemma loadBookmarksAsync_outcome state w :
  loadBookmarksAsync tt state w
  = match loadBookmarks w with
    | (Returned loaded, w') =>
        (Returned {| items := loaded; isLoading := false; error := None;
                     lastUpdated := Some (clock w') |}, w')
    | (Thrown _, w') =>
        (Returned {| items := items state; isLoading := false;
                     error := Some "載入書籤失敗"%string;
                     lastUpdated := lastUpdated state |}, w')
    | (Unmodelled, w') => (Unmodelled, w')
    end.
Proof.
  unfold loadBookmarksAsync, createAsyncThunk, dispatch, try_catch.
  unfold mbind, M_bind, bind, mret, M_ret, ret, Date_now. cbn.
  destruct (loadBookmarks w) as [[loaded | e | ] w']; reflexivity.
Qed.

End ThunkFacts.

(** X7: what the save thunk wrote is what the load thunk puts into the
    store: after [saveBookmarksAsync] of a list on a device whose storage
    works, [loadBookmarksAsync] from any state ends with exactly that list,
    not loading and without an error. *)
Theorem saved_bookmarks_are_loaded (w : World) (bookmarks : list string)
    (before restarted : BookmarksState) :
  write_fails w = false -> read_fails w = false ->
  run (loadBookmarksAsync tt restarted) (exec (saveBookmarksAsync bookmarks before) w)
  = Returned {| items := bookmarks; isLoading := false; error := None;
                lastUpdated := Some (clock w) |}.
Proof.
  intros Hw Hr. unfold run, exec at 1.
  rewrite saveBookmarksAsync_always_fulfilled. cbn [snd].
  rewrite ThunkFacts.loadBookmarksAsync_outcome.
  unfold exec. rewrite saveBookmarks_written by exact Hw. cbn [snd].
  rewrite (loadBookmarks_stored _ bookmarks); [ reflexivity | exact Hr | ].
  cbn. apply lookup_insert_eq.
Qed.

Lemma saved_bookmarks_are_loaded_witness :
  write_fails fresh_device = false /\ read_fails fresh_device = false
  /\ run (loadBookmarksAsync tt initialState)
       (exec (saveBookmarksAsync ["a1"; "b2"] initialState) fresh_device)
     = Returned {| items := ["a1"; "b2"]; isLoading := false; error := None;
                   lastUpdated := Some (clock fresh_device) |}.
Proof.
  split; [ reflexivity | ]. split; [ reflexivity | ].
  apply (saved_bookmarks_are_loaded fresh_device); reflexivity.
Defined.

(** X8: the load thunk never ends with an error, and when nothing usable
    is stored (the read fails, the key is missing, the text is empty or not
    JSON) it replaces the bookmarks in memory by the empty list. *)
Theorem failed_load_empties_the_set (w : World) (state : BookmarksState) :
  (forall state', run (loadBookmarksAsync tt state) w = Returned state' ->
                  error state' = None /\ isLoading state' = false)
  /\ (nothing_usable KEYS.BOOKMARKS w ->
      loadBookmarksAsync tt state w
      = (Returned {| items := []; isLoading := false; error := None;
                     lastUpdated := Some (clock w) |}, w)).
Proof.
  split.
  - intros state'. unfold run. rewrite ThunkFacts.loadBookmarksAsync_outcome.
    pose proof (fun e => try_catch_never_throws
                           (data ← AsyncStorage_getItem KEYS.BOOKMARKS;
                            if truthy data
                            then (parsed ← JSON_parse (default ""%string data);
                                  as_string_array parsed)
                            else ret []) [] w e) as Hnever.
    change (try_catch _ _) with loadBookmarks in Hnever. unfold run in Hnever.
    destruct (loadBookmarks w) as [[loaded | e | ] w']; cbn.
    + intros [= <-]. split; reflexivity.
    + exfalso. now apply (Hnever e).
    + discriminate.
  - intros H. rewrite ThunkFacts.loadBookmarksAsync_outcome.
    now rewrite (loadBookmarks_fallback w H).
Qed.

Lemma failed_load_empties_the_set_witness :
  let unreadable :=
    {| disk := {[ KEYS.BOOKMARKS := stringify (JArr [JStr "a1"]) ]};
       write_fails := false; read_fails := true; clock := 7 |} in
  let state := {| items := ["a1"]; isLoading := false; error := None;
                  lastUpdated := Some 5 |} in
  nothing_usable KEYS.BOOKMARKS unreadable
  /\ loadBookmarksAsync tt state unreadable
     = (Returned {| items := []; isLoading := false; error := None;
                    lastUpdated := Some 7 |}, unreadable).
Proof.
  cbv zeta. split; [ left; reflexivity | ].
  exact (proj2 (failed_load_empties_the_set
                  {| disk := {[ KEYS.BOOKMARKS := stringify (JArr [JStr "a1"]) ]};
                     write_fails := false; read_fails := true; clock := 7 |}
                  {| items := ["a1"]; isLoading := false; error := None;
                     lastUpdated := Some 5 |})
               (or_introl eq_refl)).
Defined.

(** ** The reducer of the bookmarks slice *)

Module ReducerFacts.
Import Env Bookmarks.

Lemma includes_filter (x articleId : string) (l : list string) :
  includes x (List.filter (fun id => negb (String.eqb id articleId)) l)
  = includes x l && negb (String.eqb x articleId).
Proof.
  induction l as [ | y l IH ]; [ reflexivity | ]. simpl.
  destruct (String.eqb_spec y articleId) as [-> | Hy]; simpl.
  - rewrite IH. destruct (String.eqb_spec x articleId) as [-> | Hx]; simpl.
    + now rewrite !andb_false_r.
    + now rewrite andb_true_r.
  - rewrite IH. destruct (String.eqb_spec x y) as [-> | Hxy]; simpl; [ | reflexivity ].
    destruct (String.eqb_spec y articleId); [ contradiction | reflexivity ].
Qed.

Lemma includes_app (x : string) (l k : list string) :
  includes x (l ++ k) = includes x l || includes x k.
Proof. apply existsb_app. Qed.

Lemma filter_sublist (f : string -> bool) (l : list string) :
  sublist (List.filter f l) l.
Proof.
  induction l as [ | y l IH ]; simpl; [ constructor | ].
  destruct (f y); now constructor.
Qed.

Lemma filter_app_absent (articleId : string) (l : list string) :
  includes articleId l = false ->
  List.filter (fun id => negb (String.eqb id articleId)) (l ++ [articleId]) = l.
Proof.
  intros H. rewrite List.filter_app, filter_absent by now apply includes_not_In.
  simpl. rewrite String.eqb_refl. apply app_nil_r.
Qed.

(** Every action that carries no array keeps the ids free of duplicates. *)
Lemma reducer_NoDup now state action :
  carries_no_array action = true ->
  List.NoDup (items state) -> List.NoDup (items (bookmarksReducer now state action)).
Proof.
  intros Hkind Hnd. destruct action; try discriminate Hkind; try exact Hnd.
  - now apply addBookmark_NoDup.
  - now apply removeBookmark_NoDup.
  - constructor.
Qed.

Lemma filter_length_present (articleId : string) (l : list string) :
  List.NoDup l -> In articleId l ->
  S (length (List.filter (fun id => negb (String.eqb id articleId)) l)) = length l.
Proof.
  induction 1 as [ | y l Hy Hnd IH ]; [ intros [] | ]. intros [-> | Hin]; simpl.
  - rewrite String.eqb_refl. simpl. now rewrite filter_absent.
  - destruct (String.eqb_spec y articleId) as [-> | Hne]; [ contradiction | ].
    simpl. now rewrite IH.
Qed.

(** The toggle of the headlines screen is one run of the reducer, on
    [removeBookmark] when the rendered list holds the id and on
    [addBookmark] otherwise. *)
Lemma handleBookmarkToggle_run bookmarkItems articleId state w :
  HeadlinesScreen.handleBookmarkToggle bookmarkItems articleId state w
  = (Returned
       (bookmarksReducer (clock w) state
          (if includes articleId bookmarkItems
           then removeBookmark articleId else addBookmark articleId)), w).
Proof.
  unfold HeadlinesScreen.handleBookmarkToggle, HeadlinesScreen.isBookmarked.
  now destruct (includes articleId bookmarkItems).
Qed.

End ReducerFacts.

Import ReducerFacts.

(** X9: [removeBookmark] drops the given id and nothing else: an id is in
    the set afterwards exactly when it was there before and is another id,
    and the ids that stay keep their order. *)
Theorem remove_drops_only_that_id (now : Z) (state : BookmarksState) (articleId : string) :
  let removed := bookmarksReducer now state (removeBookmark articleId) in
  (forall x, includes x (items removed)
             = includes x (items state) && negb (String.eqb x articleId))
  /\ sublist (items removed) (items state).
Proof.
  split; [ intros x; apply includes_filter | apply filter_sublist ].
Qed.

(** X10: removing an id right after adding it gives back the ids that were
    there before the add, in their order, when the id was not in the set. *)
Theorem add_then_remove_restores (now1 now2 : Z) (state : BookmarksState)
    (articleId : string) :
  includes articleId (items state) = false ->
  items (bookmarksReducer now2 (bookmarksReducer now1 state (addBookmark articleId))
           (removeBookmark articleId))
  = items state.
Proof.
  intros H. cbn [bookmarksReducer items]. rewrite H. cbn [negb items].
  now apply filter_app_absent.
Qed.

Lemma add_then_remove_restores_witness :
  let state := {| items := ["a1"; "b2"]; isLoading := false; error := None;
                  lastUpdated := None |} in
  includes "c3" (items state) = false
  /\ items (bookmarksReducer 2 (bookmarksReducer 1 state (addBookmark "c3"))
              (removeBookmark "c3"))
     = items state.
Proof.
  cbv zeta. split; [ reflexivity | ].
  apply (add_then_remove_restores 1 2
           {| items := ["a1"; "b2"]; isLoading := false; error := None;
              lastUpdated := None |} "c3"). reflexivity.
Defined.

(** X11: no id is ever bookmarked twice: from the initial state, every run
    of actions other than the two [fulfilled] ones, which bring an array
    from outside, leaves the ids without duplicates. *)
Theorem ids_stay_unique (actions : list (Z * Action)) :
  Forall (fun timed => carries_no_array (snd timed) = true) actions ->
  List.NoDup (items (reduce_all actions initialState)).
Proof.
  assert (Hgen : forall state,
             Forall (fun timed => carries_no_array (snd timed) = true) actions ->
             List.NoDup (items state) ->
             List.NoDup (items (reduce_all actions state))).
  { induction actions as [ | [now action] actions IH ]; intros state Hall Hnd;
      [ exact Hnd | ].
    inversion Hall as [ | ? ? Hone Hrest ]; subst. simpl.
    apply IH; [ exact Hrest | now apply reducer_NoDup ]. }
  intros Hall. apply Hgen; [ exact Hall | constructor ].
Qed.

Lemma ids_stay_unique_witness :
  let actions :=
    [(1, addBookmark "a1"); (2, addBookmark "a1"); (3, loadBookmarksAsync_pending);
     (4, removeBookmark "b2"); (5, addBookmark "b2"); (6, clearError)]%string in
  Forall (fun timed => carries_no_array (snd timed) = true) actions
  /\ List.NoDup (items (reduce_all actions initialState)).
Proof.
  cbv zeta.
  assert (H : Forall (fun timed : Z * Action => carries_no_array (snd timed) = true)
                [(1, addBookmark "a1"); (2, addBookmark "a1");
                 (3, loadBookmarksAsync_pending); (4, removeBookmark "b2");
                 (5, addBookmark "b2"); (6, clearError)]%string)
    by (repeat constructor).
  split; [ exact H | exact (ids_stay_unique _ H) ].
Defined.

(** X12: pressing the star on the headlines or the search screen flips the
    bookmark of that article and of no other: rendered from the state of
    the store, the toggle leaves every other id as it was. *)
Theorem toggle_flips_one_bookmark (w : World) (state : BookmarksState)
    (articleId : string) :
  exists toggled,
    run (HeadlinesScreen.handleBookmarkToggle (items state) articleId state) w
    = Returned toggled
    /\ run (SearchScreen.handleBookmarkToggle (items state) articleId state) w
       = Returned toggled
    /\ forall x, includes x (items toggled)
                 = if String.eqb x articleId
                   then negb (includes articleId (items state))
                   else includes x (items state).
Proof.
  unfold HeadlinesScreen.handleBookmarkToggle, SearchScreen.handleBookmarkToggle.
  unfold HeadlinesScreen.isBookmarked, SearchScreen.isBookmarked.
  destruct (includes articleId (items state)) eqn:Hin.
  - eexists. split; [ reflexivity | ]. split; [ reflexivity | ].
    intros x. cbn [bookmarksReducer items]. rewrite includes_filter.
    destruct (String.eqb_spec x articleId) as [-> | Hx]; simpl.
    + now rewrite andb_false_r.
    + now rewrite andb_true_r.
  - eexists. split; [ reflexivity | ]. split; [ reflexivity | ].
    intros x. cbn [bookmarksReducer items]. rewrite Hin. cbn [negb items].
    rewrite includes_app. simpl. rewrite orb_false_r.
    destruct (String.eqb_spec x articleId) as [-> | Hx]; simpl.
    + now rewrite orb_true_r.
    + now rewrite orb_false_r.
Qed.

(** X13: two toggles in a row do not always restore the list: an article
    that was not bookmarked leaves the list as it was, and one that was
    bookmarked ends up at the end of the list. *)
Theorem two_toggles_move_to_the_end (w : World) (state : BookmarksState)
    (articleId : string) :
  exists twice,
    run (once ← HeadlinesScreen.handleBookmarkToggle (items state) articleId state;
         HeadlinesScreen.handleBookmarkToggle (items once) articleId once) w
    = Returned twice
    /\ items twice
       = if includes articleId (items state)
         then (List.filter (fun id => negb (String.eqb id articleId)) (items state)
               ++ [articleId])%list
         else items state.
Proof.
  unfold run, mbind, M_bind, bind. rewrite handleBookmarkToggle_run.
  rewrite handleBookmarkToggle_run. cbn [fst].
  eexists. split; [ reflexivity | ].
  destruct (includes articleId (items state)) eqn:Hin.
  - cbn [bookmarksReducer items]. rewrite includes_filter, String.eqb_refl.
    rewrite andb_false_r. cbn [bookmarksReducer items].
    rewrite includes_filter, String.eqb_refl, andb_false_r. reflexivity.
  - cbn [bookmarksReducer items]. rewrite Hin. cbn [negb items].
    rewrite includes_app. simpl includes at 2. rewrite String.eqb_refl, orb_true_r.
    cbn [bookmarksReducer items]. now apply filter_app_absent.
Qed.

(** X14: the bookmark count follows the set: adding an id raises it by one
    exactly when the id is new, clearing sets it to zero, and, the ids
    being unique, removing an id lowers it by one exactly when the id was
    there. *)
Theorem count_follows_the_set (now : Z) (state : BookmarksState) (articleId : string) :
  let count st := selectBookmarkCount {| bookmarks := st |} in
  count (bookmarksReducer now state (addBookmark articleId))
  = (count state + (if includes articleId (items state) then 0 else 1))%nat
  /\ count (bookmarksReducer now state clearAllBookmarks) = 0%nat
  /\ (List.NoDup (items state) ->
      (count (bookmarksReducer now state (removeBookmark articleId))
       + (if includes articleId (items state) then 1 else 0))%nat
      = count state).
Proof.
  cbv zeta. unfold selectBookmarkCount, selectBookmarkItems, selectBookmarksState.
  cbn [bookmarks bookmarksReducer items].
  destruct (includes articleId (items state)) eqn:Hin; cbn [negb items].
  - repeat split; [ lia | ]. intros Hnd.
    pose proof (filter_length_present articleId (items state) Hnd
                  (proj1 (includes_In _ _) Hin)). lia.
  - rewrite length_app. repeat split. intros _.
    rewrite filter_absent by now apply includes_not_In. lia.
Qed.

Lemma count_follows_the_set_witness :
  let state := {| items := ["a1"; "b2"]%string; isLoading := false; error := None;
                  lastUpdated := None |} in
  List.NoDup (items state)
  /\ (selectBookmarkCount
        {| bookmarks := bookmarksReducer 9 state (removeBookmark "a1") |}
      + (if includes "a1" (items state) then 1 else 0))%nat
     = selectBookmarkCount {| bookmarks := state |}.
Proof.
  cbv zeta.
  assert (Hnd : List.NoDup ["a1"; "b2"]%string).
  { constructor; [ intros [H | []]; discriminate H | ].
    constructor; [ intros [] | constructor ]. }
  split; [ exact Hnd | ].
  exact (proj2 (proj2 (count_follows_the_set 9
                         {| items := ["a1"; "b2"]%string; isLoading := false;
                            error := None; lastUpdated := None |} "a1")) Hnd).
Defined.

(** ** What the screens show *)

(** X15: after [clearAllBookmarks] no card is flagged on the headlines and
    the search screen, and the bookmarks screen shows no card at all. *)
Theorem clearing_unflags_every_card (now : Z) (state : BookmarksState)
    (query : QueryHook) (searchResults : list Article) :
  let cleared := {| bookmarks := bookmarksReducer now state clearAllBookmarks |} in
  Forall (fun card => isBookmarked card = false)
    (cards_of (HeadlinesScreen.render cleared query))
  /\ Forall (fun card => isBookmarked card = false)
       (cards_of (SearchScreen.render cleared searchResults query))
  /\ cards_of (BookmarksScreen.render cleared query) = [].
Proof.
  cbv zeta.
  unfold HeadlinesScreen.render, SearchScreen.render, BookmarksScreen.render.
  unfold selectBookmarkItems, selectBookmarksState.
  cbn [bookmarks bookmarksReducer items]. repeat split.
  - destruct (_ && _); [ constructor | ]. destruct (hook_error query); [ constructor | ].
    apply Forall_map, Forall_forall. intros item _. reflexivity.
  - destruct (_ || _); [ constructor | ]. destruct (Nat.eqb _ _); [ constructor | ].
    apply Forall_map, Forall_forall. intros item _. reflexivity.
  - destruct (_ || _); [ reflexivity | ].
    assert (Hnone : List.filter (fun article : Article => includes (id article) [])
                      (default [] (data query)) = []).
    { induction (default [] (data query)) as [ | a l IH ]; [ reflexivity | exact IH ]. }
    now rewrite Hnone.
Qed.

(** X16: the bookmarks screen lists, in the order of the headlines feed,
    exactly the articles of the feed whose id is bookmarked, each of them
    flagged; a bookmarked id that the feed does not carry has no card. *)
Theorem bookmarks_screen_lists_bookmarked_feed (state : RootState) (query : QueryHook) :
  let cards := cards_of (BookmarksScreen.render state query) in
  Forall (fun card => isBookmarked card = true) cards
  /\ map article cards
     = if selectBookmarksLoading state || hook_isLoading query then []
       else List.filter (fun item => selectIsBookmarked state (id item))
              (default [] (data query)).
Proof.
  cbv zeta. unfold BookmarksScreen.render, selectIsBookmarked.
  destruct (_ || _); [ split; [ constructor | reflexivity ] | ].
  remember (List.filter (fun article : Article =>
                           includes (id article) (selectBookmarkItems state))
              (default [] (data query))) as shown eqn:E.
  assert (Hflag : Forall (fun item : Article =>
                            includes (id item) (selectBookmarkItems state) = true) shown).
  { apply List.Forall_forall. intros item Hin. rewrite E in Hin.
    now apply filter_In in Hin. }
  clear E. destruct shown as [ | item more ]; [ split; [ constructor | reflexivity ] | ].
  cbn [Nat.eqb length cards_of]. split.
  - apply Forall_map. exact Hflag.
  - rewrite map_map. cbn [article BookmarksScreen.renderNewsItem]. apply map_id.
Qed.

(** ** The api *)

Module ApiFacts.
Import JSON Env NewsApi.
Local Open Scope list_scope.

Lemma list_ascii_of_string_app (a b : string) :
  list_ascii_of_string (a +:+ b) = list_ascii_of_string a ++ list_ascii_of_string b.
Proof. induction a as [ | c a IH ]; simpl; [ | rewrite IH ]; reflexivity. Qed.

(** Two integers with the same decimal form are the same integer. *)
Lemma print_int_inj z1 z2 : print_int z1 = print_int z2 -> z1 = z2.
Proof.
  intros H.
  pose proof (JSONFacts.parse_number_print z1 [] eq_refl) as H1.
  pose proof (JSONFacts.parse_number_print z2 [] eq_refl) as H2.
  rewrite app_nil_r in H1, H2. rewrite H, H2 in H1. now injection H1.
Qed.

Lemma Number_toString_inj z1 z2 : Number_toString z1 = Number_toString z2 -> z1 = z2.
Proof.
  unfold Number_toString. intros H. apply print_int_inj.
  rewrite <- (list_ascii_of_string_of_list_ascii (print_int z1)).
  rewrite <- (list_ascii_of_string_of_list_ascii (print_int z2)). now rewrite H.
Qed.

(** The decimal form of a number that is not negative has digits only. *)
Lemma print_uint_all_digits d :
  Forall (fun c => JSON.digit_of c <> None) (print_uint d).
Proof. induction d; cbn [print_uint]; constructor; try assumption; discriminate. Qed.

Lemma print_index_digits (i : nat) :
  Forall (fun c => JSON.digit_of c <> None) (print_int (Z.of_nat i)).
Proof.
  unfold print_int. destruct i as [ | i ]; [ apply print_uint_all_digits | ].
  cbn [Z.of_nat Z.to_int]. apply print_uint_all_digits.
Qed.

(** A run of digits ends at the first hyphen. *)
Lemma digits_delimited (a b x y : list ascii) :
  Forall (fun c => JSON.digit_of c <> None) a ->
  Forall (fun c => JSON.digit_of c <> None) b ->
  a ++ "-"%char :: x = b ++ "-"%char :: y -> a = b.
Proof.
  intros Ha. revert b. induction Ha as [ | c a Hc Ha IH ]; intros b Hb H.
  - destruct Hb as [ | c' b Hc' Hb ]; [ reflexivity | ].
    injection H as <- _. now destruct Hc'.
  - destruct Hb as [ | c' b Hc' Hb ].
    + injection H as -> _. now destruct Hc.
    + injection H as <- H. f_equal. now apply IH.
Qed.

(** The id of an article without a link gives its index back, whatever the
    two readings of the clock. *)
Lemma generated_id_inj prefix (now1 now2 : Z) (i j : nat) :
  (prefix +:+ "-" +:+ Number_toString (Z.of_nat i) +:+ "-" +:+ Number_toString now1
   = prefix +:+ "-" +:+ Number_toString (Z.of_nat j) +:+ "-" +:+ Number_toString now2)%string ->
  i = j.
Proof.
  intros H. apply (f_equal list_ascii_of_string) in H.
  rewrite !list_ascii_of_string_app in H.
  apply app_inv_head, app_inv_head in H.
  unfold Number_toString in H. rewrite !list_ascii_of_string_of_list_ascii in H.
  apply digits_delimited in H; try apply print_index_digits.
  now apply Nat2Z.inj, print_int_inj.
Qed.

(** With a clock that stands still during the map, the two forms of the
    transformation agree. *)
Lemma transformResponse_ticking_still prefix (now : Z) (response : NewsApiResponse) :
  transformResponse_ticking prefix (fun _ => now) response
  = transformResponse prefix now response.
Proof. reflexivity. Qed.

Lemma count_occ_print_int (c : ascii) z :
  JSON.digit_of c = None -> c <> "-"%char ->
  count_occ ascii_dec (print_int z) c = 0%nat.
Proof.
  intros Hdigit Hminus.
  assert (Huint : forall d, count_occ ascii_dec (print_uint d) c = 0%nat).
  { induction d; cbn [print_uint]; try reflexivity;
      (rewrite count_occ_cons_neq; [ exact IHd | intros <-; discriminate Hdigit ]). }
  unfold print_int. destruct (Z.to_int z) as [d | d]; [ apply Huint | ].
  rewrite count_occ_cons_neq; [ apply Huint | congruence ].
Qed.

(** A projection that the indexed map does not touch. *)
Lemma map_imap_frame {A B : Type} (f : A -> B) (g : nat -> A -> A) (l : list A) :
  (forall i a, f (g i a) = f a) -> map f (imap g l) = map f l.
Proof.
  revert g. induction l as [ | x l IH ]; intros g Hg; [ reflexivity | ].
  simpl. rewrite Hg. f_equal. apply IH. intros i a. apply Hg.
Qed.

Ltac each_byte c := destruct c as [[] [] [] [] [] [] [] []].

(** None of the characters that structure a query string survives
    [encodeURIComponent]. *)
Lemma count_occ_encode_byte (b c : ascii) :
  c = "&"%char \/ c = "="%char \/ c = "?"%char \/ c = "#"%char ->
  count_occ ascii_dec (JSString.encode_byte b) c = 0%nat.
Proof.
  intros [-> | [-> | [-> | ->]]]; each_byte b; reflexivity.
Qed.

Lemma count_occ_encoded (s : string) (c : ascii) :
  c = "&"%char \/ c = "="%char \/ c = "?"%char \/ c = "#"%char ->
  count_occ ascii_dec (list_ascii_of_string (JSString.encodeURIComponent s)) c = 0%nat.
Proof.
  intros Hc. unfold JSString.encodeURIComponent.
  rewrite list_ascii_of_string_of_list_ascii.
  induction (list_ascii_of_string s) as [ | b l IH ]; [ reflexivity | ].
  simpl flat_map. rewrite count_occ_app, IH, count_occ_encode_byte by exact Hc.
  reflexivity.
Qed.

End ApiFacts.

Import ApiFacts.

(** X17: [transformResponse] changes nothing but the id: the transformed
    list has the articles of the response in their order, each with its
    title, description, url, image, date, source, author and content. *)
Theorem transformResponse_keeps_the_articles (prefix : string) (now : Z)
    (response : NewsApiResponse) :
  let kept (a : Article) :=
    (title a, description a, url a, urlToImage a, publishedAt a, source a,
     author a, content a) in
  map kept (transformResponse prefix now response) = map kept (articles response).
Proof.
  cbv zeta. unfold transformResponse. apply map_imap_frame.
  intros i a. reflexivity.
Qed.

(** X18: within one response, two articles without a link at different
    positions get different ids, whatever the clock reads while each of
    them is mapped: the index alone tells the ids apart. *)
Theorem unlinked_articles_have_distinct_ids (prefix : string) (clock : nat -> Z)
    (response : NewsApiResponse) (i j : nat) (a b : Article) :
  transformResponse_ticking prefix clock response !! i = Some a ->
  transformResponse_ticking prefix clock response !! j = Some b ->
  i <> j -> url a = ""%string -> url b = ""%string ->
  id a <> id b.
Proof.
  unfold transformResponse_ticking. intros Ha Hb Hij Hua Hub Hid.
  apply list_lookup_imap_Some in Ha as (a0 & _ & ->).
  apply list_lookup_imap_Some in Hb as (b0 & _ & ->).
  cbn [with_id url id] in *. rewrite Hua, Hub in Hid. cbn in Hid.
  apply Hij. now apply (generated_id_inj prefix (clock i) (clock j)).
Qed.

Lemma unlinked_articles_have_distinct_ids_witness :
  let clock (index : nat) := (1700000000000 + 7 * Z.of_nat index)%Z in
  let transformed := transformResponse_ticking "article" clock two_unlinked in
  let a := with_id "article" 1700000000000 0 (unlinked "first") in
  let b := with_id "article" 1700000000007 1 (unlinked "second") in
  transformed !! 0%nat = Some a /\ transformed !! 1%nat = Some b
  /\ 0%nat <> 1%nat /\ url a = ""%string /\ url b = ""%string
  /\ id a <> id b.
Proof.
  cbv zeta. split; [ reflexivity | ]. split; [ reflexivity | ].
  split; [ discriminate | ]. split; [ reflexivity | ]. split; [ reflexivity | ].
  apply (unlinked_articles_have_distinct_ids "article"
           (fun index => (1700000000000 + 7 * Z.of_nat index)%Z) two_unlinked
           0 1); [ reflexivity | reflexivity | discriminate | reflexivity | reflexivity ].
Defined.

(** X19: the text that the user searches for cannot change the shape of
    the request: whatever the query, the url of [searchNews] has exactly
    one question mark, three ampersands, four equals signs and no hash. *)
Theorem search_url_keeps_its_shape (arg : SearchNewsParams) :
  let occurrences c :=
    count_occ ascii_dec (list_ascii_of_string (searchNews_query arg)) c in
  occurrences "?"%char = 1%nat /\ occurrences "&"%char = 3%nat
  /\ occurrences "="%char = 4%nat /\ occurrences "#"%char = 0%nat.
Proof.
  cbv zeta. unfold searchNews_query, Number_toString.
  rewrite !list_ascii_of_string_app, !list_ascii_of_string_of_list_ascii.
  rewrite !count_occ_app.
  rewrite !count_occ_encoded by tauto.
  rewrite !count_occ_print_int by (reflexivity || discriminate).
  repeat split.
Qed.

(** ** The search bar and the news card *)

Module TrimFacts.
Import JSString.
Local Open Scope list_scope.

Lemma ws1_low a : ws1 a = true -> (N_of_ascii a <= 32)%N.
Proof.
  unfold ws1. rewrite orb_true_iff, andb_true_iff, !N.leb_le, N.eqb_eq. lia.
Qed.

Lemma ws2_high a b : ws2 a b = true -> (128 <= N_of_ascii b)%N.
Proof. unfold ws2. rewrite andb_true_iff, !N.eqb_eq. lia. Qed.

Lemma ws3_high a b c :
  ws3 a b c = true -> (128 <= N_of_ascii b)%N /\ (128 <= N_of_ascii c)%N.
Proof.
  unfold ws3. cbv zeta.
  rewrite !orb_true_iff, !andb_true_iff, !orb_true_iff, !andb_true_iff.
  rewrite !N.eqb_eq, !N.leb_le. lia.
Qed.

Lemma ws2_after a b : ws1 b = true -> ws2 a b = false.
Proof.
  intros Hb. apply ws1_low in Hb. destruct (ws2 a b) eqn:E; [ | reflexivity ].
  apply ws2_high in E. lia.
Qed.

Lemma ws3_after a b c : ws1 b = true \/ ws1 c = true -> ws3 a b c = false.
Proof.
  intros H. destruct (ws3 a b c) eqn:E; [ | reflexivity ].
  apply ws3_high in E. destruct H as [H | H]; apply ws1_low in H; lia.
Qed.

Lemma trim_start_blanks p x : blanks p -> trim_start (p ++ x) = trim_start x.
Proof.
  induction 1 as [ | c p Hc Hp IH ]; [ reflexivity | ]. simpl. now rewrite Hc.
Qed.

Lemma trim_start_only_blanks p : blanks p -> trim_start p = [].
Proof. intros H. rewrite <- (app_nil_r p). now rewrite trim_start_blanks. Qed.

(** Blanks behind a text do not change where its leading white space ends. *)
Lemma trim_start_before_blanks p :
  blanks p ->
  forall n y, (length y <= n)%nat ->
    trim_start (y ++ p) = if blank y then [] else trim_start y ++ p.
Proof.
  intros Hp. induction n as [ | n IH ]; intros y Hlen.
  - destruct y; [ | simpl in Hlen; lia ]. simpl. now apply trim_start_only_blanks.
  - destruct y as [ | a r ]; [ simpl; now apply trim_start_only_blanks | ].
    simpl in Hlen. unfold blank. cbn [app trim_start].
    destruct (ws1 a) eqn:Ha; [ apply IH; lia | ].
    destruct r as [ | b r1 ].
    + cbn [app]. destruct Hp as [ | b p Hb Hp ]; [ reflexivity | ].
      rewrite (ws2_after a b Hb). destruct p as [ | c p ]; [ reflexivity | ].
      now rewrite (ws3_after a b c (or_introl Hb)).
    + cbn [app]. destruct (ws2 a b) eqn:Hab; [ apply IH; simpl in *; lia | ].
      destruct r1 as [ | c r2 ].
      * cbn [app]. destruct Hp as [ | c p Hc Hp ]; [ reflexivity | ].
        now rewrite (ws3_after a b c (or_intror Hc)).
      * cbn [app]. destruct (ws3 a b c) eqn:Habc; [ apply IH; simpl in *; lia | ].
        reflexivity.
Qed.

Lemma blank_before_blanks p y : blanks p -> blank (y ++ p) = blank y.
Proof.
  intros Hp. unfold blank at 1.
  rewrite (trim_start_before_blanks p Hp (length y) y (le_n _)).
  unfold blank. destruct (trim_start y); reflexivity.
Qed.

Lemma trim_end_blanks p y : blanks p -> trim_end (y ++ p) = trim_end y.
Proof.
  intros Hp. induction y as [ | c r IH ].
  - simpl. destruct p as [ | c p' ]; [ reflexivity | ].
    cbn [trim_end]. unfold blank. now rewrite (trim_start_only_blanks _ Hp).
  - change ((c :: r) ++ p) with (c :: (r ++ p)). cbn [trim_end].
    change (c :: (r ++ p)) with ((c :: r) ++ p).
    rewrite (blank_before_blanks p (c :: r) Hp), IH. reflexivity.
Qed.

(** Trimming drops ASCII white space on both sides. *)
Lemma trim_padded (pad1 q pad2 : string) :
  blanks (list_ascii_of_string pad1) -> blanks (list_ascii_of_string pad2) ->
  trim (pad1 +:+ q +:+ pad2) = trim q.
Proof.
  intros H1 H2. unfold trim. rewrite !ApiFacts.list_ascii_of_string_app.
  rewrite (trim_start_blanks _ _ H1).
  rewrite (trim_start_before_blanks _ H2 _ _ (le_n _)).
  unfold blank. destruct (trim_start (list_ascii_of_string q)) eqn:E; [ reflexivity | ].
  now rewrite (trim_end_blanks _ _ H2).
Qed.

Lemma prefix_app (p s : string) : String.prefix p (p +:+ s) = true.
Proof.
  induction p as [ | c p IH ]; simpl; [ now destruct s | ].
  destruct (ascii_dec c c); [ exact IH | contradiction ].
Qed.

End TrimFacts.

Import TrimFacts.

(** X20: white space around the text of the search bar does not matter:
    the search that is triggered is the one for the text without it, and
    a text of white space only triggers no search and clears the results. *)
Theorem search_ignores_surrounding_blanks (pad1 pad2 text : string)
    (local : SearchScreen.LocalState) :
  JSString.blanks (list_ascii_of_string pad1) ->
  JSString.blanks (list_ascii_of_string pad2) ->
  SearchScreen.handleSearch
    {| SearchScreen.searchQuery := pad1 +:+ text +:+ pad2;
       SearchScreen.searchResults := SearchScreen.searchResults local |}
  = SearchScreen.handleSearch
      {| SearchScreen.searchQuery := text;
         SearchScreen.searchResults := SearchScreen.searchResults local |}
  /\ SearchScreen.handleSearch
       {| SearchScreen.searchQuery := pad1 +:+ pad2;
          SearchScreen.searchResults := SearchScreen.searchResults local |}
     = None
  /\ SearchScreen.searchResults (SearchScreen.handleSearchTextChange (pad1 +:+ pad2) local)
     = [].
Proof.
  intros H1 H2.
  pose proof (trim_padded pad1 text pad2 H1 H2) as Htext.
  pose proof (trim_padded pad1 "" pad2 H1 H2) as Hnone.
  change (pad1 +:+ "" +:+ pad2) with (pad1 +:+ pad2) in Hnone.
  change (JSString.trim "") with "" in Hnone.
  unfold SearchScreen.handleSearch, SearchScreen.handleSearchTextChange.
  cbn [SearchScreen.searchQuery SearchScreen.searchResults].
  rewrite Htext, Hnone. repeat split.
Qed.

Lemma search_ignores_surrounding_blanks_witness :
  let local := {| SearchScreen.searchQuery := "";
                  SearchScreen.searchResults := [linked "https://example.org/a"] |} in
  JSString.blanks (list_ascii_of_string "  ")
  /\ JSString.blanks (list_ascii_of_string " ")
  /\ SearchScreen.handleSearch
       {| SearchScreen.searchQuery := "  " +:+ "rust lang" +:+ " ";
          SearchScreen.searchResults := SearchScreen.searchResults local |}
     = SearchScreen.handleSearch
         {| SearchScreen.searchQuery := "rust lang";
            SearchScreen.searchResults := SearchScreen.searchResults local |}
  /\ SearchScreen.handleSearch
       {| SearchScreen.searchQuery := "  " +:+ " ";
          SearchScreen.searchResults := SearchScreen.searchResults local |}
     = None
  /\ SearchScreen.searchResults (SearchScreen.handleSearchTextChange ("  " +:+ " ") local)
     = [].
Proof.
  cbv zeta.
  assert (H1 : JSString.blanks (list_ascii_of_string "  ")) by (repeat constructor).
  assert (H2 : JSString.blanks (list_ascii_of_string " ")) by (repeat constructor).
  split; [ exact H1 | ]. split; [ exact H2 | ].
  exact (search_ignores_surrounding_blanks "  " " " "rust lang"
           {| SearchScreen.searchQuery := "";
              SearchScreen.searchResults := [linked "https://example.org/a"] |} H1 H2).
Defined.

(** X21: a press on a card whose article has no link, or a link of white
    space only, shows the alert and calls neither [Linking.canOpenURL] nor
    [Linking.openURL]. *)
Theorem press_without_link_only_alerts (linking : NewsCard.Linking) (article : Article) :
  JSString.blanks (list_ascii_of_string (url article)) ->
  NewsCard.handlePress false linking article = [NewsCard.AlertNoLink].
Proof.
  intros H. unfold NewsCard.handlePress.
  assert (Htrim : JSString.trim (url article) = "").
  { unfold JSString.trim. now rewrite (trim_start_only_blanks _ H). }
  rewrite Htrim. cbn. now rewrite orb_true_r.
Qed.

Lemma press_without_link_only_alerts_witness :
  let linking := {| NewsCard.canOpenURL := fun _ => Some true;
                    NewsCard.openURL := fun _ => Some tt |} in
  JSString.blanks (list_ascii_of_string (url (linked "   ")))
  /\ NewsCard.handlePress false linking (linked "   ") = [NewsCard.AlertNoLink].
Proof.
  cbv zeta.
  assert (H : JSString.blanks (list_ascii_of_string (url (linked "   "))))
    by (repeat constructor).
  split; [ exact H | ].
  exact (press_without_link_only_alerts _ (linked "   ") H).
Defined.

(** X22: every url that a press hands to [Linking.canOpenURL] starts with
    [http://] or [https://], and when the answer is yes that same url is
    the one that is opened. *)
Theorem pressed_link_has_a_scheme (linking : NewsCard.Linking) (article : Article)
    (link : string) :
  In (NewsCard.AskedCanOpen link) (NewsCard.handlePress false linking article) ->
  JSString.startsWith link "http://" || JSString.startsWith link "https://" = true
  /\ (NewsCard.canOpenURL linking link = Some true ->
      In (NewsCard.AskedOpen link) (NewsCard.handlePress false linking article)).
Proof.
  unfold NewsCard.handlePress. cbn [negb].
  destruct (_ || _); [ intros [H | []]; discriminate H | ].
  set (asked := if negb (JSString.startsWith (url article) "http://")
                     && negb (JSString.startsWith (url article) "https://")
                  then "https://" +:+ url article else url article).
  assert (Hscheme : JSString.startsWith asked "http://"
                    || JSString.startsWith asked "https://" = true).
  { subst asked. unfold JSString.startsWith.
    destruct (String.prefix "http://" (url article)) eqn:E1;
      [ cbn [negb andb]; now rewrite E1 | ].
    destruct (String.prefix "https://" (url article)) eqn:E2; cbn [negb andb].
    - now rewrite E1, E2.
    - now rewrite (prefix_app "https://" (url article)), orb_true_r. }
  assert (Hasked : forall effects,
             In (NewsCard.AskedCanOpen link) (NewsCard.AskedCanOpen asked :: effects) ->
             Forall (fun effect => effect <> NewsCard.AskedCanOpen link) effects ->
             link = asked).
  { intros effects [[= <-] | Hin] Hall; [ reflexivity | ].
    exfalso. rewrite List.Forall_forall in Hall. now apply (Hall _ Hin). }
  destruct (NewsCard.canOpenURL linking asked) as [ [ | ] | ] eqn:Hcan.
  - destruct (NewsCard.openURL linking asked); intros Hin;
      (assert (link = asked) as ->
         by (apply (Hasked _ Hin); repeat constructor; discriminate));
      (split; [ exact Hscheme | intros _; right; now left ]).
  - destruct (NewsCard.openURL linking (url article)); intros Hin;
      (assert (link = asked) as ->
         by (apply (Hasked _ Hin); repeat constructor; discriminate));
      (split; [ exact Hscheme | rewrite Hcan; discriminate ]).
  - intros Hin.
    assert (link = asked) as ->
      by (apply (Hasked _ Hin); repeat constructor; discriminate).
    split; [ exact Hscheme | rewrite Hcan; discriminate ].
Qed.

Lemma pressed_link_has_a_scheme_witness :
  let linking := {| NewsCard.canOpenURL := fun _ => Some true;
                    NewsCard.openURL := fun _ => Some tt |} in
  In (NewsCard.AskedCanOpen "https://example.org/a")
    (NewsCard.handlePress false linking (linked "example.org/a"))
  /\ JSString.startsWith "https://example.org/a" "http://"
     || JSString.startsWith "https://example.org/a" "https://" = true
  /\ (NewsCard.canOpenURL linking "https://example.org/a" = Some true ->
      In (NewsCard.AskedOpen "https://example.org/a")
        (NewsCard.handlePress false linking (linked "example.org/a"))).
Proof.
  cbv zeta.
  assert (H : In (NewsCard.AskedCanOpen "https://example.org/a")
                (NewsCard.handlePress false
                   {| NewsCard.canOpenURL := fun _ => Some true;
                      NewsCard.openURL := fun _ => Some tt |}
                   (linked "example.org/a"))) by (left; reflexivity).
  split; [ exact H | ].
  exact (pressed_link_has_a_scheme _ _ _ H).
Defined.

(** X23: the age shown on a card: "just now" for anything younger than an
    hour, a date in the future or a date that does not parse included;
    between 1 and 23 full hours below one day; and from one day on the
    number of full days, which is the age divided by 24 hours. *)
Theorem publish_time_labels (published : option Z) (now : Z) :
  let age := match published with Some date => now - date | None => 0 end in
  (published = None \/ age < 3600000 ->
   NewsCard.formatPublishTime published now = "剛剛")
  /\ (published <> None -> 3600000 <= age < 86400000 ->
      NewsCard.formatPublishTime published now
      = Number_toString (age / 3600000) +:+ "小時前"
      /\ 1 <= age / 3600000 <= 23)
  /\ (published <> None -> 86400000 <= age ->
      NewsCard.formatPublishTime published now
      = Number_toString (age / 86400000) +:+ "天前"
      /\ 1 <= age / 86400000).
Proof.
  destruct published as [date | ]; cbv zeta.
  2: { split; [ reflexivity | split; intros H; now destruct H ]. }
  unfold NewsCard.formatPublishTime.
  change (1000 * 60 * 60) with 3600000.
  assert (Hdays : (now - date) / 3600000 / 24 = (now - date) / 86400000)
    by (rewrite Z.div_div by lia; reflexivity).
  rewrite Hdays.
  pose proof (Z.div_mod (now - date) 3600000 ltac:(lia)) as Hh.
  pose proof (Z.mod_pos_bound (now - date) 3600000 ltac:(lia)) as Hhb.
  pose proof (Z.div_mod (now - date) 86400000 ltac:(lia)) as Hd.
  pose proof (Z.mod_pos_bound (now - date) 86400000 ltac:(lia)) as Hdb.
  repeat split.
  - intros [H | H]; [ discriminate H | ].
    destruct (Z.ltb_spec 0 ((now - date) / 86400000)); [ lia | ].
    destruct (Z.ltb_spec 0 ((now - date) / 3600000)); [ lia | reflexivity ].
  - destruct (Z.ltb_spec 0 ((now - date) / 86400000)); [ lia | ].
    destruct (Z.ltb_spec 0 ((now - date) / 3600000)); [ reflexivity | lia ].
  - lia.
  - lia.
  - destruct (Z.ltb_spec 0 ((now - date) / 86400000)); [ reflexivity | lia ].
  - lia.
Qed.

Lemma publish_time_labels_witness :
  (Some 0 <> None /\ 3600000 <= 7500000 - 0 < 86400000
   /\ NewsCard.formatPublishTime (Some 0) 7500000
      = Number_toString ((7500000 - 0) / 3600000) +:+ "小時前")
  /\ (86400000 <= 200000000 - 0
      /\ NewsCard.formatPublishTime (Some 0) 200000000
         = Number_toString ((200000000 - 0) / 86400000) +:+ "天前")
  /\ (-5 - 0 < 3600000 /\ NewsCard.formatPublishTime (Some 0) (-5) = "剛剛").
Proof.
  split; [ | split ].
  - split; [ discriminate | ]. split; [ lia | ].
    apply (proj1 (proj2 (publish_time_labels (Some 0) 7500000)));
      [ discriminate | cbv zeta; lia ].
  - split; [ lia | ].
    apply (proj2 (proj2 (publish_time_labels (Some 0) 200000000)));
      [ discriminate | cbv zeta; lia ].
  - split; [ lia | ].
    apply (proj1 (publish_time_labels (Some 0) (-5))). right. cbv zeta. lia.
Defined.

(** ** The ui slice *)

Module UiFacts.

Lemma filter_other_id (wanted : string) (l : list Ui.Notification) :
  Forall (fun n => Ui.id n <> wanted) l ->
  List.filter (fun n => negb (String.eqb (Ui.id n) wanted)) l = l.
Proof.
  induction 1 as [ | n l Hn Hl IH ]; [ reflexivity | ]. simpl.
  destruct (String.eqb_spec (Ui.id n) wanted); [ contradiction | ]. simpl.
  now rewrite IH.
Qed.

End UiFacts.

(** X24: [removeNotification] removes every notification with the given id
    and no other: a notification is listed afterwards exactly when it was
    listed before and has another id; theme, tab, offline flag and loading
    flags stay as they are. *)
Theorem removeNotification_removes_that_id (now_id now : Z) (state : Ui.UiState)
    (wanted : string) (n : Ui.Notification) :
  let after := Ui.uiReducer now_id now state (Ui.removeNotification wanted) in
  (In n (Ui.notifications after) <-> In n (Ui.notifications state) /\ Ui.id n <> wanted)
  /\ sublist (Ui.notifications after) (Ui.notifications state)
  /\ Ui.theme after = Ui.theme state /\ Ui.activeTab after = Ui.activeTab state
  /\ Ui.isOffline after = Ui.isOffline state /\ Ui.loading after = Ui.loading state.
Proof.
  cbv zeta. cbn [Ui.uiReducer Ui.notifications Ui.theme Ui.activeTab Ui.isOffline
                 Ui.loading].
  split; [ | split; [ | repeat split ] ].
  - rewrite filter_In. split; intros [Hin Hid]; (split; [ exact Hin | ]).
    + intros E. rewrite E, String.eqb_refl in Hid. discriminate Hid.
    + now destruct (String.eqb_spec (Ui.id n) wanted).
  - induction (Ui.notifications state) as [ | x l IH ]; simpl; [ constructor | ].
    destruct (negb _); now constructor.
Qed.

(** X25: a notification can be dismissed on its own when it was added at
    another millisecond than the others: after two notifications added at
    different times, removing the id of the first leaves the second, behind
    what was listed before. *)
Theorem notifications_of_different_times (state : Ui.UiState)
    (t1 t1' t2 t2' : Z) (kind1 kind2 : Ui.NotificationType) (text1 text2 : string) :
  t1 <> t2 ->
  Forall (fun n => Ui.id n <> Number_toString t1) (Ui.notifications state) ->
  let added :=
    Ui.uiReducer t2 t2' (Ui.uiReducer t1 t1' state (Ui.addNotification kind1 text1))
      (Ui.addNotification kind2 text2) in
  Ui.notifications
    (Ui.uiReducer t2 t2' added (Ui.removeNotification (Number_toString t1)))
  = (Ui.notifications state
     ++ [ {| Ui.id := Number_toString t2; Ui.type := kind2; Ui.message := text2;
             Ui.timestamp := t2' |} ])%list.
Proof.
  intros Hdiff Hfresh. cbv zeta.
  cbn [Ui.uiReducer Ui.notifications].
  rewrite !List.filter_app, (UiFacts.filter_other_id _ _ Hfresh).
  cbn [List.filter Ui.id]. rewrite String.eqb_refl. cbn [negb].
  destruct (String.eqb_spec (Number_toString t2) (Number_toString t1)) as [E | _].
  - exfalso. apply Hdiff. symmetry. now apply Number_toString_inj.
  - cbn [negb]. now rewrite app_nil_r.
Qed.

Lemma notifications_of_different_times_witness :
  1700000000000 <> 1700000000001
  /\ Forall (fun n => Ui.id n <> Number_toString 1700000000000)
       (Ui.notifications Ui.initialState)
  /\ Ui.notifications
       (Ui.uiReducer 1700000000001 1700000000001
          (Ui.uiReducer 1700000000001 1700000000001
             (Ui.uiReducer 1700000000000 1700000000000 Ui.initialState
                (Ui.addNotification Ui.success "saved"))
             (Ui.addNotification Ui.error "offline"))
          (Ui.removeNotification (Number_toString 1700000000000)))
     = (Ui.notifications Ui.initialState
        ++ [ {| Ui.id := Number_toString 1700000000001; Ui.type := Ui.error;
                Ui.message := "offline"; Ui.timestamp := 1700000000001 |} ])%list.
Proof.
  split; [ discriminate | ]. split; [ constructor | ].
  apply (notifications_of_different_times Ui.initialState
           1700000000000 1700000000000 1700000000001 1700000000001
           Ui.success Ui.error "saved" "offline"); [ discriminate | constructor ].
Defined.

(** X26: the id of a notification is the millisecond at which it was
    added, so two notifications added within the same millisecond share
    their id, and dismissing one of them dismisses both. *)
Theorem notifications_of_one_millisecond (state : Ui.UiState)
    (t t1' t2' : Z) (kind1 kind2 : Ui.NotificationType) (text1 text2 : string) :
  Forall (fun n => Ui.id n <> Number_toString t) (Ui.notifications state) ->
  let added :=
    Ui.uiReducer t t2' (Ui.uiReducer t t1' state (Ui.addNotification kind1 text1))
      (Ui.addNotification kind2 text2) in
  length (Ui.notifications added) = (length (Ui.notifications state) + 2)%nat
  /\ Ui.notifications (Ui.uiReducer t t2' added (Ui.removeNotification (Number_toString t)))
     = Ui.notifications state.
Proof.
  intros Hfresh. cbv zeta. cbn [Ui.uiReducer Ui.notifications]. split.
  - rewrite !length_app. simpl. lia.
  - rewrite !List.filter_app, (UiFacts.filter_other_id _ _ Hfresh).
    cbn [List.filter Ui.id]. rewrite String.eqb_refl. cbn [negb].
    now rewrite !app_nil_r.
Qed.

Lemma notifications_of_one_millisecond_witness :
  Forall (fun n => Ui.id n <> Number_toString 1700000000000)
    (Ui.notifications Ui.initialState)
  /\ Ui.notifications
       (Ui.uiReducer 1700000000000 1700000000000
          (Ui.uiReducer 1700000000000 1700000000000
             (Ui.uiReducer 1700000000000 1700000000000 Ui.initialState
                (Ui.addNotification Ui.success "saved"))
             (Ui.addNotification Ui.error "offline"))
          (Ui.removeNotification (Number_toString 1700000000000)))
     = Ui.notifications Ui.initialState.
Proof.
  split; [ constructor | ].
  apply (notifications_of_one_millisecond Ui.initialState
           1700000000000 1700000000000 1700000000000 Ui.success Ui.error
           "saved" "offline"). constructor.
Defined.
